(** * VisionScout front end: the listings page and the chat page

    A shallow embedding of [src/pages/Listings.tsx] and [src/pages/Chat.tsx]:
    the normalizers of the two upstream feeds, the debounced fetch cycle with
    its cancel flag, the free-text filter, the paginator with its pager, the
    details dialog, the chat send handler with the controls around it and
    the listing classifier of the chat transcript.

    Event handlers and effects are written as functions on the component
    state; what the browser decides (when a timer fires, how a request
    settles, what [Date.now] and [Math.random] return) enters as events and
    arguments. *)

From Stdlib Require Import ZArith String Ascii Bool Lia.
From stdpp Require Import gmap strings list pretty.

Set Warnings "-register-all".
Open Scope string_scope.
Open Scope list_scope.

(** ** The fragment of JavaScript the two pages use *)

Module Js.

(** What the pages take from the runtime.  Numbers stay abstract: the pages
    only test them for truthiness and print them.  Strings are Rocq
    strings, the bytes of the UTF-8 text. *)
Class Host := {
  number : Type;
  (** [false] exactly on [0], [-0] and [NaN] *)
  num_truthy : number -> bool;
  (** [String(n)] *)
  num_toString : number -> string;
  (** [n.toLocaleString()] *)
  num_toLocaleString : number -> string;
  (** [Number(s)] on a string *)
  num_ofString : string -> number;
  num_ofZ : Z -> number;
  num_NaN : number;
  (** [String.prototype.toLowerCase] *)
  toLowerCase : string -> string;
  (** [String.prototype.trim] *)
  trim : string -> string;
  trim_empty : trim "" = "";
  (** [String(f)] for the built-in function of that name, the text
      [Function.prototype.toString] gives *)
  fun_toString : string -> string;
}.

Section Values.
Context `{host : Host}.

(** The values the pages handle: those of parsed JSON, and the built-in
    method a member access on a string can give.  An object of parsed JSON
    has data members only, none of them callable, and [Object.prototype]
    behind it. *)
Inductive JsVal : Type :=
| JUndefined
| JNull
| JBool (b : bool)
| JNum (n : number)
| JStr (s : string)
| JArr (l : list JsVal)
| JObj (m : gmap string JsVal)
| JFun (name : string).

(** A raw record of an upstream response: a JSON object. *)
Definition RawRecord : Type := gmap string JsVal.

(** [r.k] on a record *)
Definition get (r : RawRecord) (k : string) : JsVal :=
  default JUndefined (r !! k).

(** ToBoolean *)
Definition truthy (v : JsVal) : bool :=
  match v with
  | JUndefined | JNull => false
  | JBool b => b
  | JNum n => num_truthy n
  | JStr s => negb (s =? "")
  | JArr _ | JObj _ | JFun _ => true
  end.

(** [a || b] *)
Definition logicalOr (a b : JsVal) : JsVal := if truthy a then a else b.

Definition nullish (v : JsVal) : bool :=
  match v with
  | JUndefined | JNull => true
  | _ => false
  end.

(** [a ?? b] *)
Definition coalesce (a b : JsVal) : JsVal := if nullish a then b else a.

(** [a || b] where the evaluation of [b] may throw: [b] is evaluated only
    when [a] is falsy. *)
Definition logicalOrElse (a : JsVal) (b : option JsVal) : option JsVal :=
  if truthy a then Some a else b.

(** [v?.k] for the keys the pages read this way: [make], [model], [year],
    [trim], [body_type], [transmission] and [photo_links].  An object gives
    its own member.  Of the prototypes behind the other values only that
    of strings has one of these keys: [trim], the built-in method. *)
Definition optMember (v : JsVal) (k : string) : JsVal :=
  match v with
  | JObj m => get m k
  | JStr _ => if k =? "trim" then JFun "trim" else JUndefined
  | _ => JUndefined
  end.

(** [v?.[0]] *)
Definition optFirst (v : JsVal) : JsVal :=
  match v with
  | JArr l => default JUndefined (head l)
  | JStr (String a _) => JStr (String a "")
  | JObj m => get m "0"
  | _ => JUndefined
  end.

(** [a === s] against a string literal *)
Definition strictEqStr (a : JsVal) (s : string) : bool :=
  match a with
  | JStr t => t =? s
  | _ => false
  end.

(** [Array.prototype.join] on strings *)
Fixpoint join (sep : string) (l : list string) : string :=
  match l with
  | [] => ""
  | [s] => s
  | s :: rest => s +:+ sep +:+ join sep rest
  end.

(** ToString, as a template literal, [String(v)] and [+] with a string
    apply it; [None] when it throws a [TypeError].  An object is printed by
    the [toString] found on it: [Object.prototype.toString], unless the
    object has a member of that name, which is not callable, and then no
    method gives a primitive.  An array is printed by [join], which prints
    its elements in turn. *)
Fixpoint toStr (v : JsVal) : option string :=
  match v with
  | JUndefined => Some "undefined"
  | JNull => Some "null"
  | JBool true => Some "true"
  | JBool false => Some "false"
  | JNum n => Some (num_toString n)
  | JStr s => Some s
  | JArr l =>
      match
        (fix elems (l : list JsVal) : option (list string) :=
           match l with
           | [] => Some []
           | x :: rest =>
               match (if nullish x then Some "" else toStr x) with
               | Some s =>
                   match elems rest with
                   | Some ss => Some (s :: ss)
                   | None => None
                   end
               | None => None
               end
           end) l
      with
      | Some ss => Some (join "," ss)
      | None => None
      end
  | JObj m =>
      match m !! "toString" with
      | Some _ => None
      | None => Some "[object Object]"
      end
  | JFun name => Some (fun_toString name)
  end.

(** [Number(v)]; [None] when it throws a [TypeError].  An object, an array
    or a function is first turned into a primitive, which is the text
    [toStr] gives. *)
Definition toNumber (v : JsVal) : option number :=
  match v with
  | JUndefined => Some num_NaN
  | JNull => Some (num_ofZ 0)
  | JBool b => Some (num_ofZ (if b then 1 else 0))
  | JNum n => Some n
  | JStr s => Some (num_ofString s)
  | JArr _ | JObj _ | JFun _ => num_ofString <$> toStr v
  end.

(** [Number(v).toLocaleString()] *)
Definition localeNumber (v : JsVal) : option string :=
  num_toLocaleString <$> toNumber v.

End Values.

(** [s.includes(q)] *)
Fixpoint includes (s q : string) : bool :=
  String.prefix q s ||
  match s with
  | EmptyString => false
  | String _ s' => includes s' q
  end.

(** No character of [s] is a dash. *)
Fixpoint dashFree (s : string) : bool :=
  match s with
  | EmptyString => true
  | String a s' => negb (Ascii.eqb a "-") && dashFree s'
  end.

(** [s || ""] on a string, then [String(...)] *)
Definition orEmpty (s : string) : string := if s =? "" then "" else s.

(** [s.split(" ")[0]] *)
Fixpoint splitFirst (s : string) : string :=
  match s with
  | EmptyString => ""
  | String a s' => if Ascii.eqb a " " then "" else String a (splitFirst s')
  end.

(** The index an argument of [slice] stands for in an array of [len]
    elements. *)
Definition relIndex (len k : Z) : Z :=
  if (k <? 0)%Z then Z.max (len + k) 0 else Z.min k len.

(** [l.slice(a, b)] *)
Definition slice {A} (l : list A) (a b : Z) : list A :=
  let len := Z.of_nat (length l) in
  let s := relIndex len a in
  let e := relIndex len b in
  take (Z.to_nat (e - s)) (drop (Z.to_nat s) l).

End Js.

(** ** The chat page ([Chat.tsx]) *)

Module Chat.
Import Js.

Section Page.
Context `{host : Host}.

Inductive Role : Type := user | assistant.

(** [interface Message]; [listings] is [None] when the member is absent. *)
Record Message : Type := {
  id : string;
  role : Role;
  listings : option (list RawRecord);
  content : string;
}.

(** The component state: [messages], [input] and [isLoading]. *)
Record State : Type := {
  messages : list Message;
  input : string;
  isLoading : bool;
}.

Definition greeting : Message :=
  {| id := "1";
     role := assistant;
     listings := None;
     content :=
       "Hello! I'm your VisionScout AI assistant. I'm here to help you find the perfect property or car based on your preferences. What are you looking for today?" |}.

Definition initial : State :=
  {| messages := [greeting]; input := ""; isLoading := false |}.

(** The request [handleSend] issues: [POST] with body [{ query }]. *)
Record Request : Type := {
  url : string;
  method : string;
  query : string;
}.

(** The parsed body of the response, with the members [handleSend] reads:
    [reply] a string and [listings] an array of records, each [None] when
    absent or [null]. *)
Record ChatData : Type := {
  reply : option string;
  data_listings : option (list RawRecord);
}.

(** How the round trip ends: an exception reaches the [catch] ([fetch] or
    [response.json()] rejects, or the body is [null]), or the body is
    parsed. *)
Inductive Settled : Type :=
| Failed
| Replied (data : ChatData).

Record Toast : Type := {
  title : string;
  description : string;
  variant : string;
}.

Definition fallbackText : string :=
  "I couldnâ€™t find any matching listings.".

(** [data.reply || fallbackText] *)
Definition replyOr (r : option string) (d : string) : string :=
  match r with
  | Some s => if s =? "" then d else s
  | None => d
  end.

(** [data.listings && data.listings.length > 0] *)
Definition hasListings (data : ChatData) : bool :=
  match data_listings data with
  | Some l => (0 <? Z.of_nat (length l))%Z
  | None => false
  end.

(** [handleSend] (lines 41-59), up to the [await] of the request.  [now]
    is what [Date.now()] returns. *)
Definition handleSend (now : Z) (st : State) : State * option Request :=
  if (trim (input st) =? "") || isLoading st then (st, None)
  else
    let userMessage :=
      {| id := pretty now; role := user; listings := None;
         content := input st |} in
    ({| messages := messages st ++ [userMessage];
        input := "";
        isLoading := true |},
     Some {| url := "http://127.0.0.1:5000/api/chat";
             method := "POST";
             query := input st |}).

(** The rest of [handleSend] (lines 61-89), once the request has settled:
    the [try] body after the [await]s, the [catch] and the [finally]. *)
Definition handleSend_settled (now : Z) (o : Settled) (st : State)
  : State * option Toast :=
  let done (msgs : list Message) :=
    {| messages := msgs; input := input st; isLoading := false |} in
  match o with
  | Failed =>
      (done (messages st),
       Some {| title := "Error";
               description := "Failed to connect to the AI backend.";
               variant := "destructive" |})
  | Replied data =>
      if hasListings data then
        let listingsMessage :=
          {| id := pretty (now + 1)%Z; role := assistant;
             listings := Some (slice (default [] (data_listings data)) 0 3);
             content := "" |} in
        (done (messages st ++ [listingsMessage]), None)
      else
        let fallbackMessage :=
          {| id := pretty (now + 1)%Z; role := assistant;
             listings := None;
             content := replyOr (reply data) fallbackText |} in
        (done (messages st ++ [fallbackMessage]), None)
  end.

(** The classifier of the transcript renderer (lines 156-159): the value
    of [isCar] for one embedded listing. *)
Definition isCar (item : RawRecord) : JsVal :=
  logicalOr (get item "make")
     (logicalOr (get item "bodyType")
         (JBool (strictEqStr (get item "source") "Cars.com"))).

Inductive Layout : Type := PropertyLayout | CarLayout.

(** [!isCar ? <property layout> : <car layout>] *)
Definition layout (item : RawRecord) : Layout :=
  if negb (truthy (isCar item)) then PropertyLayout else CarLayout.

(** *** The controls around [handleSend] *)

(** [disabled] of the send button (line 332). *)
Definition sendDisabled (st : State) : bool :=
  (trim (input st) =? "") || isLoading st.

(** [setInput(value)] *)
Definition setInput (value : string) (st : State) : State :=
  {| messages := messages st; input := value; isLoading := isLoading st |}.

(** The members of a keyboard event that [handleKeyPress] reads. *)
Record KeyboardEvent : Type := {
  key : string;
  shiftKey : bool;
}.

(** [handleKeyPress] (lines 92-97); the last component tells whether
    [preventDefault] was called. *)
Definition handleKeyPress (e : KeyboardEvent) (now : Z) (st : State)
  : State * option Request * bool :=
  if (key e =? "Enter") && negb (shiftKey e)
  then (handleSend now st, true)
  else ((st, None), false).

Definition quickPrompts : list string :=
  [ "I'm looking for a family home under $500k";
    "Show me electric cars with long range";
    "Find luxury apartments in downtown areas";
    "Compare SUVs for outdoor adventures" ].

(** [messages.length === 1], the condition under which the quick prompts
    are rendered (line 300). *)
Definition quickPromptsShown (st : State) : bool :=
  (length (messages st) =? 1)%nat.

(** The heading of the card of an embedded listing (lines 167-169): the
    value of the expression; [None] when the template literal throws. *)
Definition cardTitle (item : RawRecord) : option JsVal :=
  logicalOrElse (get item "address")
    (logicalOrElse (get item "title")
       (year ← toStr (logicalOr (get item "year") (JStr ""));
        make ← toStr (logicalOr (get item "make") (JStr ""));
        Some (JStr (year +:+ " " +:+ make)))).

(** The page with what it has set going: the requests awaited, oldest
    first, and the toasts shown. *)
Record World : Type := {
  page : State;
  inFlight : list Request;
  toasts : list Toast;
}.

Definition start : World :=
  {| page := initial; inFlight := []; toasts := [] |}.

(** What the user and the network do to the page.  A disabled control
    receives no event: the input while [isLoading] (line 328), the send
    button under [sendDisabled]; the quick prompts exist only while
    [quickPromptsShown]. *)
Inductive Event : Type :=
| ChangeInput (value : string)
| ClickPrompt (index : nat)
| ClickSend (now : Z)
| KeyPress (e : KeyboardEvent) (now : Z)
| Settles (now : Z) (o : Settled).

(** A call of [handleSend], the request it issues joining those awaited. *)
Definition send (now : Z) (w : World) : World :=
  let '(st, request) := handleSend now (page w) in
  {| page := st;
     inFlight := inFlight w ++ option_list request;
     toasts := toasts w |}.

Definition step (w : World) (e : Event) : World :=
  match e with
  | ChangeInput value =>
      if isLoading (page w) then w
      else {| page := setInput value (page w);
              inFlight := inFlight w; toasts := toasts w |}
  | ClickPrompt index =>
      if quickPromptsShown (page w) then
        match quickPrompts !! index with
        | Some prompt =>
            {| page := setInput prompt (page w);
               inFlight := inFlight w; toasts := toasts w |}
        | None => w
        end
      else w
  | ClickSend now => if sendDisabled (page w) then w else send now w
  | KeyPress e now =>
      if isLoading (page w) then w
      else
        let '(st, request, _) := handleKeyPress e now (page w) in
        {| page := st;
           inFlight := inFlight w ++ option_list request;
           toasts := toasts w |}
  | Settles now o =>
      match inFlight w with
      | [] => w
      | _ :: rest =>
          let '(st, toast) := handleSend_settled now o (page w) in
          {| page := st; inFlight := rest;
             toasts := toasts w ++ option_list toast |}
      end
  end.

Definition run (w : World) (events : list Event) : World :=
  foldl step w events.

(** The transcript has no two assistant messages in a row. *)
Fixpoint answersFollowQuestions (previous : Role) (msgs : list Message)
  : bool :=
  match msgs with
  | [] => true
  | m :: rest =>
      match previous, role m with
      | assistant, assistant => false
      | _, r => answersFollowQuestions r rest
      end
  end.

(** *** Notions for stating what the page keeps *)

(** The role of the last message, [previous] standing before the first. *)
Definition lastRole (previous : Role) (msgs : list Message) : Role :=
  default previous (role <$> last msgs).

(** What holds of the chat page at every moment. *)
Definition settledOrWaiting (w : World) : Prop :=
  answersFollowQuestions user (messages (page w)) = true
  /\ ((isLoading (page w) = false /\ inFlight w = [])
      \/ (isLoading (page w) = true
          /\ exists m,
               last (messages (page w)) = Some m
               /\ role m = user
               /\ inFlight w = [{| url := "http://127.0.0.1:5000/api/chat";
                                   method := "POST";
                                   query := content m |}])).

(** What the transcript holds of one message: listings come at most three
    at a time, never none, from the assistant, with no text beside them. *)
Definition wellFormedMessage (m : Message) : Prop :=
  match listings m with
  | Some l => l <> [] /\ (length l <= 3)%nat /\ content m = ""
              /\ role m = assistant
  | None => True
  end.

End Page.
End Chat.

(** ** The listings page ([Listings.tsx]) *)

Module Listings.
Import Js.

(** What the build provides: the imported demo image and the two API keys
    of [import.meta.env]. *)
Class Env := {
  demoCarImg : string;
  RENTCAST_API_KEY : string;
  MARKETCHECK_API_KEY : string;
}.

Inductive ListingType : Type := property | car.

Definition ListingType_eqb (a b : ListingType) : bool :=
  match a, b with
  | property, property | car, car => true
  | _, _ => false
  end.

Module PropertyListing.
Section T.
Context `{host : Host}.
Record t : Type := {
  id : JsVal;
  title : string;
  location : string;
  price : string;
  bedrooms : JsVal;
  bathrooms : JsVal;
  sqft : string;
  image : string;
  condition : Z;
}.
End T.
End PropertyListing.

Module CarListing.
Section T.
Context `{host : Host}.
Record t : Type := {
  id : JsVal;
  title : string;
  details : string;
  price : string;
  mileage : string;
  year : string;
  image : JsVal;
  condition : Z;
  color : JsVal;
  make : JsVal;
  bodyType : JsVal;
}.
End T.
End CarListing.

Definition ITEMS_PER_PAGE : Z := 9.
Definition FETCH_DEBOUNCE_MS : Z := 500.

(** The property filters of the page. *)
Record Filters : Type := {
  city : string;
  propertyType : string;
  bedrooms : string;
  bathrooms : string;
  sqftMin : string;
  sqftMax : string;
}.

(** The car filters of the page. *)
Record CarFilters : Type := {
  color : string;
  bodyType : string;
  make : string;
}.

Definition initialFilters : Filters :=
  {| city := "Richardson";
     propertyType := "Apartment,Single Family,Condo";
     bedrooms := ""; bathrooms := ""; sqftMin := ""; sqftMax := "" |}.

Definition initialCarFilters : CarFilters :=
  {| color := ""; bodyType := ""; make := "" |}.

(** A request to one of the two upstream services, with its query
    parameters before URL encoding. *)
Inductive Request : Type :=
| RentCastRequest (params : list (string * string)) (apiKey : string)
| MarketCheckRequest (params : list (string * string)).

(** [if (v) url += "&k=v"] *)
Definition optionalParam (k v : string) : list (string * string) :=
  if v =? "" then [] else [(k, v)].

Definition propertyImages : list string :=
  [ "https://images.unsplash.com/photo-1545324418-cc1a3fa10c00?w=600&h=400&fit=crop";
    "https://images.unsplash.com/photo-1568605114967-8130f3a36994?w=600&h=400&fit=crop";
    "https://images.unsplash.com/photo-1512917774080-9991f1c4c750?w=600&h=400&fit=crop";
    "https://images.unsplash.com/photo-1522708323590-d24dbb6b0267?w=600&h=400&fit=crop";
    "https://images.unsplash.com/photo-1613490493576-7fde63acd811?w=600&h=400&fit=crop";
    "https://images.unsplash.com/photo-1564013799919-ab600027ffc6?w=600&h=400&fit=crop" ].

Definition carImages : list string :=
  [ "https://images.unsplash.com/photo-1617788138017-80ad40651399?w=600&h=400&fit=crop";
    "https://images.unsplash.com/photo-1555215695-3004980ad54e?w=600&h=400&fit=crop";
    "https://images.unsplash.com/photo-1503376780353-7e6692767b70?w=600&h=400&fit=crop";
    "https://images.unsplash.com/photo-1552519507-da3b142c6e3d?w=600&h=400&fit=crop";
    "https://images.unsplash.com/photo-1606664515524-ed2f786a0bd6?w=600&h=400&fit=crop";
    "https://images.unsplash.com/photo-1533473359331-0135ef1b58bf?w=600&h=400&fit=crop" ].

(** [pool[i % pool.length]] *)
Definition pick (pool : list string) (i : nat) : string :=
  default "" (pool !! (i mod length pool)%nat).

(** [l.map((x, i) => f x i)] for a callback that may throw: [None] when some
    call throws. *)
Fixpoint mapWithIndex {A B} (f : A -> nat -> option B) (l : list A) (i : nat)
  : option (list B) :=
  match l with
  | [] => Some []
  | x :: rest =>
      match f x i with
      | None => None
      | Some y =>
          match mapWithIndex f rest (S i) with
          | None => None
          | Some ys => Some (y :: ys)
          end
      end
  end.

(** How an awaited [fetch] ends: the promise rejects (a network error), or
    a response arrives with its [ok] flag and what [res.json()] gives,
    [None] when that promise rejects.  The two [await]s of one request are
    one event: nothing is written between them, and [cancel] is read after
    both. *)
Inductive Fetched (A : Type) : Type :=
| Rejected
| Answered (ok : bool) (json : option A).
Arguments Rejected {A}.
Arguments Answered {A} ok json.

Section Page.
Context `{host : Host} `{env : Env}.

Definition rentcastRequest (f : Filters) : Request :=
  RentCastRequest
    ([("city", city f); ("state", "TX"); ("status", "Active");
      ("limit", "24"); ("propertyType", propertyType f)]
     ++ optionalParam "minBedrooms" (bedrooms f)
     ++ optionalParam "minBathrooms" (bathrooms f)
     ++ optionalParam "minSquareFootage" (sqftMin f)
     ++ optionalParam "maxSquareFootage" (sqftMax f))
    RENTCAST_API_KEY.

Definition marketcheckRequest (cf : CarFilters) : Request :=
  MarketCheckRequest
    ([("api_key", MARKETCHECK_API_KEY); ("rows", "24"); ("zip", "75080");
      ("radius", "50"); ("car_type", "used")]
     ++ optionalParam "make" (make cf)
     ++ optionalParam "body_type" (bodyType cf)
     ++ optionalParam "exterior_color" (color cf)).

(** [p.addressLine1.split(" ")[0]]; [None] when the call throws, the
    value having no method [split]: only a string has one. *)
Definition firstWord (v : JsVal) : option string :=
  match v with
  | JStr a => Some (splitFirst a)
  | _ => None
  end.

(** The callback of [rentData.map] (lines 144-162).  [rnd] is what
    [Math.floor(Math.random() * 26)] returns for this record.  [None]: the
    callback throws, in [p.addressLine1.split], in a template literal or
    in [Number]. *)
Definition transformProperty (filters : Filters) (rnd : Z) (p : RawRecord)
    (i : nat) : option PropertyListing.t :=
  id ← logicalOrElse (get p "id")
         (addr ← toStr (logicalOr (get p "addressLine1") (JStr "addr"));
          Some (JStr (pretty i +:+ "-" +:+ addr)));
  title ←
    (if truthy (get p "propertyType") then
       kind ← toStr (get p "propertyType");
       street ←
         (if truthy (get p "addressLine1") then
            word ← firstWord (get p "addressLine1");
            Some (" on " +:+ word +:+ " St")
          else Some "");
       Some (kind +:+ street)
     else
       town ← toStr (get p "city");
       Some ("Property in " +:+ town));
  town ← toStr (logicalOr (get p "city") (JStr (city filters)));
  state ← toStr (logicalOr (get p "state") (JStr "TX"));
  price ←
    (if truthy (get p "price") then
       amount ← localeNumber (get p "price"); Some ("$" +:+ amount)
     else Some "N/A");
  sqft ←
    (if truthy (get p "squareFootage") then
       area ← localeNumber (get p "squareFootage"); Some (area +:+ " sq ft")
     else Some "N/A");
  Some
    {| PropertyListing.id := id;
       PropertyListing.title := title;
       PropertyListing.location := town +:+ ", " +:+ state;
       PropertyListing.price := price;
       PropertyListing.bedrooms := coalesce (get p "bedrooms") (JStr "—");
       PropertyListing.bathrooms := coalesce (get p "bathrooms") (JStr "—");
       PropertyListing.sqft := sqft;
       PropertyListing.image := pick propertyImages i;
       PropertyListing.condition := (rnd + 70)%Z |}.

(** [c.build?.k || c.k || d] *)
Definition buildOr (c : RawRecord) (k : string) (d : string) : JsVal :=
  logicalOr (optMember (get c "build") k) (logicalOr (get c k) (JStr d)).

(** [v ? " • " + v : ""] *)
Definition bulleted (v : JsVal) : option string :=
  if truthy v then text ← toStr v; Some (" • " +:+ text) else Some "".

(** The callback of [carData.map] (lines 205-235); [None] when it throws,
    in [Number], in a template literal or in [String]. *)
Definition transformCar (rnd : Z) (c : RawRecord) (i : nat)
  : option CarListing.t :=
  let make := buildOr c "make" "Unknown" in
  let model := buildOr c "model" "Model" in
  let year := buildOr c "year" "N/A" in
  let trim := buildOr c "trim" "" in
  price ←
    (if truthy (get c "price") then
       amount ← localeNumber (get c "price"); Some ("$" +:+ amount)
     else Some "");
  miles ←
    (if truthy (get c "miles") then
       distance ← localeNumber (get c "miles"); Some (distance +:+ " miles")
     else Some "N/A");
  let bodyType := buildOr c "body_type" "" in
  let transmission := buildOr c "transmission" "" in
  let color :=
    logicalOr (get c "exterior_color") (logicalOr (get c "color") (JStr ""))
  in
  let image :=
    logicalOr (optFirst (optMember (get c "media") "photo_links"))
       (JStr (pick carImages i)) in
  yearText ← toStr year;
  makeText ← toStr make;
  modelText ← toStr model;
  bodyText ← toStr bodyType;
  transmissionText ← bulleted transmission;
  trimText ← bulleted trim;
  yearString ← toStr year;
  Some
    {| CarListing.id := logicalOr (get c "id") (JStr ("car-" +:+ pretty i));
       CarListing.title := yearText +:+ " " +:+ makeText +:+ " " +:+ modelText;
       CarListing.details := bodyText +:+ transmissionText +:+ trimText;
       CarListing.price := price;
       CarListing.mileage := miles;
       CarListing.year := yearString;
       CarListing.image := image;
       CarListing.condition := (rnd + 70)%Z;
       CarListing.color := color;
       CarListing.make := make;
       CarListing.bodyType := bodyType |}.

Definition demoCar : CarListing.t :=
  {| CarListing.id := JStr "demo-volkswagen-2014";
     CarListing.title := "2014 Volkswagen SUV";
     CarListing.details := "SUV • Automatic • Comfortline Trim";
     CarListing.price := "";
     CarListing.mileage := "124,000 miles";
     CarListing.year := "2014";
     CarListing.image := JStr demoCarImg;
     CarListing.condition := 82;
     CarListing.color := JStr "Black";
     CarListing.make := JStr "Volkswagen";
     CarListing.bodyType := JStr "SUV" |}.

(** [transformedProperties] (lines 143-163): [rnd i] is the draw for
    record [i]; [None] when a callback throws. *)
Definition transformedProperties (filters : Filters) (rnd : nat -> Z)
    (rentData : list RawRecord) : option (list PropertyListing.t) :=
  mapWithIndex (fun p i => transformProperty filters (rnd i) p i) rentData 0.

(** [transformedCars] (lines 205-235) after [unshift(demoCar)]
    (line 252); [None] when a callback throws. *)
Definition transformedCars (rnd : nat -> Z) (carData : list RawRecord)
  : option (list CarListing.t) :=
  cars ← mapWithIndex (fun c i => transformCar (rnd i) c i) carData 0;
  Some (demoCar :: cars).

(** *** Component state *)

Record State : Type := {
  activeType : ListingType;
  propertyListings : list PropertyListing.t;
  carListings : list CarListing.t;
  query : string;
  loading : bool;
  currentPage : Z;
  filters : Filters;
  carFilters : CarFilters;
}.

Definition initialState : State :=
  {| activeType := property;
     propertyListings := [];
     carListings := [];
     query := "";
     loading := true;
     currentPage := 1;
     filters := initialFilters;
     carFilters := initialCarFilters |}.

Definition setActiveType (k : ListingType) (st : State) : State :=
  {| activeType := k; propertyListings := propertyListings st;
     carListings := carListings st; query := query st; loading := loading st;
     currentPage := currentPage st; filters := filters st;
     carFilters := carFilters st |}.

Definition setPropertyListings (l : list PropertyListing.t) (st : State)
  : State :=
  {| activeType := activeType st; propertyListings := l;
     carListings := carListings st; query := query st; loading := loading st;
     currentPage := currentPage st; filters := filters st;
     carFilters := carFilters st |}.

Definition setCarListings (l : list CarListing.t) (st : State) : State :=
  {| activeType := activeType st; propertyListings := propertyListings st;
     carListings := l; query := query st; loading := loading st;
     currentPage := currentPage st; filters := filters st;
     carFilters := carFilters st |}.

Definition setQuery (q : string) (st : State) : State :=
  {| activeType := activeType st; propertyListings := propertyListings st;
     carListings := carListings st; query := q; loading := loading st;
     currentPage := currentPage st; filters := filters st;
     carFilters := carFilters st |}.

Definition setLoading (b : bool) (st : State) : State :=
  {| activeType := activeType st; propertyListings := propertyListings st;
     carListings := carListings st; query := query st; loading := b;
     currentPage := currentPage st; filters := filters st;
     carFilters := carFilters st |}.

Definition setCurrentPage (n : Z) (st : State) : State :=
  {| activeType := activeType st; propertyListings := propertyListings st;
     carListings := carListings st; query := query st; loading := loading st;
     currentPage := n; filters := filters st;
     carFilters := carFilters st |}.

Definition setFilters (f : Filters) (st : State) : State :=
  {| activeType := activeType st; propertyListings := propertyListings st;
     carListings := carListings st; query := query st; loading := loading st;
     currentPage := currentPage st; filters := f;
     carFilters := carFilters st |}.

Definition setCarFilters (cf : CarFilters) (st : State) : State :=
  {| activeType := activeType st; propertyListings := propertyListings st;
     carListings := carListings st; query := query st; loading := loading st;
     currentPage := currentPage st; filters := filters st;
     carFilters := cf |}.

(** *** Search and pagination *)

(** An element of [currentListings], which the filter callback reads as
    [any]. *)
Inductive Listing : Type :=
| PropertyItem (p : PropertyListing.t)
| CarItem (c : CarListing.t).

Definition currentListings (st : State) : list Listing :=
  match activeType st with
  | property => PropertyItem <$> propertyListings st
  | car => CarItem <$> carListings st
  end.

(** [listing.title] and the other members the callback reads: [None] when
    the listing has no such member. *)
Definition titleOf (l : Listing) : option string :=
  match l with
  | PropertyItem p => Some (PropertyListing.title p)
  | CarItem c => Some (CarListing.title c)
  end.

Definition priceOf (l : Listing) : option string :=
  match l with
  | PropertyItem p => Some (PropertyListing.price p)
  | CarItem c => Some (CarListing.price c)
  end.

Definition locationOf (l : Listing) : option string :=
  match l with
  | PropertyItem p => Some (PropertyListing.location p)
  | CarItem _ => None
  end.

Definition sqftOf (l : Listing) : option string :=
  match l with
  | PropertyItem p => Some (PropertyListing.sqft p)
  | CarItem _ => None
  end.

Definition detailsOf (l : Listing) : option string :=
  match l with
  | PropertyItem _ => None
  | CarItem c => Some (CarListing.details c)
  end.

Definition yearOf (l : Listing) : option string :=
  match l with
  | PropertyItem _ => None
  | CarItem c => Some (CarListing.year c)
  end.

Definition mileageOf (l : Listing) : option string :=
  match l with
  | PropertyItem _ => None
  | CarItem c => Some (CarListing.mileage c)
  end.

(** [String(member || "").toLowerCase()] *)
Definition lowered (member : option string) : string :=
  toLowerCase (orEmpty (default "" member)).

(** The callback of [currentListings.filter], [q] being the lowered query. *)
Definition matchesQuery (kind : ListingType) (q : string) (listing : Listing)
  : bool :=
  if includes (lowered (titleOf listing)) q then true
  else if includes (lowered (priceOf listing)) q then true
  else
    match kind with
    | property =>
        includes (lowered (locationOf listing)) q ||
        includes (lowered (sqftOf listing)) q
    | car =>
        includes (lowered (detailsOf listing)) q ||
        includes (lowered (yearOf listing)) q ||
        includes (lowered (mileageOf listing)) q
    end.

(** The body of the [useMemo] of [filteredListings] (lines 271-311), as a
    function of its three dependencies. *)
Definition filterListings (kind : ListingType) (query : string)
    (listings : list Listing) : list Listing :=
  if trim query =? "" then listings
  else
    let q := toLowerCase query in
    List.filter (matchesQuery kind q) listings.

Definition filteredListings (st : State) : list Listing :=
  filterListings (activeType st) (query st) (currentListings st).

(** [Math.ceil(filteredListings.length / ITEMS_PER_PAGE) || 1] *)
Definition totalPages (st : State) : Z :=
  let pages :=
    ((Z.of_nat (length (filteredListings st)) + ITEMS_PER_PAGE - 1)
       / ITEMS_PER_PAGE)%Z in
  if (pages =? 0)%Z then 1%Z else pages.

Definition startIndex (st : State) : Z :=
  ((currentPage st - 1) * ITEMS_PER_PAGE)%Z.

Definition paginatedListings (st : State) : list Listing :=
  slice (filteredListings st) (startIndex st)
        (startIndex st + ITEMS_PER_PAGE)%Z.

(** *** The debounced fetch cycle *)

(** The body of a MarketCheck response: [listings] is [None] when the
    member is absent or [null]. *)
Record CarJson : Type := {
  json_listings : option (list RawRecord);
}.

(** [rentData] after [if (rentRes.ok) rentData = await rentRes.json()];
    [None] when an exception is thrown on the way. *)
Definition rentDataOf (o : Fetched (list RawRecord))
  : option (list RawRecord) :=
  match o with
  | Rejected => None
  | Answered ok json => if ok then json else Some []
  end.

(** [carData] after [carData = json.listings || []]; [None] when an
    exception is thrown on the way. *)
Definition carDataOf (o : Fetched CarJson) : option (list RawRecord) :=
  match o with
  | Rejected => None
  | Answered ok json =>
      if ok then
        match json with
        | Some j => Some (default [] (json_listings j))
        | None => None
        end
      else Some []
  end.

(** Where one run of the effect stands: its timer is pending, was cleared
    by the cleanup, or has fired and the callback awaits the first or the
    second request, or has returned. *)
Inductive Phase : Type :=
| TimerPending
| TimerCleared
| AwaitingRent
| AwaitingCar
| Finished.

(** One run of the fetch effect: its [cancel] variable and the [filters]
    and [carFilters] its closure captured. *)
Record Cycle : Type := {
  cancel : bool;
  phase : Phase;
  seenFilters : Filters;
  seenCarFilters : CarFilters;
}.

Definition newCycle (f : Filters) (cf : CarFilters) : Cycle :=
  {| cancel := false; phase := TimerPending;
     seenFilters := f; seenCarFilters := cf |}.

Definition setPhase (ph : Phase) (c : Cycle) : Cycle :=
  {| cancel := cancel c; phase := ph;
     seenFilters := seenFilters c; seenCarFilters := seenCarFilters c |}.

(** The cleanup the effect returns: [cancel = true; clearTimeout(timer)]. *)
Definition cleanupCycle (c : Cycle) : Cycle :=
  {| cancel := true;
     phase := match phase c with
              | TimerPending => TimerCleared
              | ph => ph
              end;
     seenFilters := seenFilters c; seenCarFilters := seenCarFilters c |}.

(** The page with the runs of its fetch effect, oldest first, and the
    requests sent so far, each with the run that sent it. *)
Record World : Type := {
  ui : State;
  cycles : list Cycle;
  sent : list (nat * Request);
}.

(** React runs the cleanup of the effect in force, the last run. *)
Definition cleanup (cs : list Cycle) : list Cycle :=
  alter cleanupCycle (pred (length cs)) cs.

(** A change of [filters] or [carFilters]: cleanup, then a new run. *)
Definition restartCycle (st : State) (cs : list Cycle) : list Cycle :=
  cleanup cs ++ [newCycle (filters st) (carFilters st)].

Definition mount : World :=
  {| ui := initialState;
     cycles := [newCycle initialFilters initialCarFilters];
     sent := [] |}.

Inductive Event : Type :=
| SetActiveType (k : ListingType)
| SetFilters (update : Filters -> Filters)
| SetCarFilters (update : CarFilters -> CarFilters)
| SetQuery (q : string)
| HandlePageChange (page : Z)
| TimerFires (id : nat)
| RentSettles (id : nat) (o : Fetched (list RawRecord)) (rnd : nat -> Z)
| CarSettles (id : nat) (o : Fetched CarJson) (rnd : nat -> Z)
| Unmount.

(** [finally { if (!cancel) setLoading(false) }] *)
Definition finally (c : Cycle) (st : State) : State :=
  if cancel c then st else setLoading false st.

(** The timer callback up to [await fetch(rentcastURL)]. *)
Definition timerFires (id : nat) (c : Cycle) (w : World) : World :=
  {| ui := setLoading true (ui w);
     cycles := <[id := setPhase AwaitingRent c]> (cycles w);
     sent := sent w ++ [(id, rentcastRequest (seenFilters c))] |}.

(** From the first [await] to the second: the property half of the [try]
    body, or the [catch] and [finally] when it throws. *)
Definition rentSettles (id : nat) (c : Cycle) (o : Fetched (list RawRecord))
    (rnd : nat -> Z) (w : World) : World :=
  match rentDataOf o ≫= transformedProperties (seenFilters c) rnd with
  | Some listings =>
      {| ui := if cancel c then ui w
               else setPropertyListings listings (ui w);
         cycles := <[id := setPhase AwaitingCar c]> (cycles w);
         sent := sent w ++ [(id, marketcheckRequest (seenCarFilters c))] |}
  | None =>
      {| ui := finally c (ui w);
         cycles := <[id := setPhase Finished c]> (cycles w);
         sent := sent w |}
  end.

(** From the second [await] to the end of the callback: the vehicle half of
    the [try] body, or the [catch] when it throws, and the [finally]. *)
Definition carSettles (id : nat) (c : Cycle) (o : Fetched CarJson)
    (rnd : nat -> Z) (w : World) : World :=
  match carDataOf o ≫= transformedCars rnd with
  | Some listings =>
      {| ui := finally c
                 (if cancel c then ui w
                  else setCarListings listings (ui w));
         cycles := <[id := setPhase Finished c]> (cycles w);
         sent := sent w |}
  | None =>
      {| ui := finally c (ui w);
         cycles := <[id := setPhase Finished c]> (cycles w);
         sent := sent w |}
  end.

(** One event of the page.  The page-reset effect (lines 325-327),
    [setCurrentPage(1)], runs after a render in which [activeType],
    [filters] or [carFilters] changed; the fetch effect (lines 99-266)
    after one in which [filters] or [carFilters] changed.  A filter handler
    always stores a fresh object; [setActiveType] with the kind already
    active renders nothing. *)
Definition step (w : World) (e : Event) : World :=
  match e with
  | SetActiveType k =>
      if ListingType_eqb k (activeType (ui w)) then w
      else
        {| ui := setCurrentPage 1 (setActiveType k (ui w));
           cycles := cycles w; sent := sent w |}
  | SetFilters update =>
      let st := setFilters (update (filters (ui w))) (ui w) in
      {| ui := setCurrentPage 1 st;
         cycles := restartCycle st (cycles w); sent := sent w |}
  | SetCarFilters update =>
      let st := setCarFilters (update (carFilters (ui w))) (ui w) in
      {| ui := setCurrentPage 1 st;
         cycles := restartCycle st (cycles w); sent := sent w |}
  | SetQuery q =>
      {| ui := setQuery q (ui w); cycles := cycles w; sent := sent w |}
  | HandlePageChange page =>
      {| ui := setCurrentPage page (ui w);
         cycles := cycles w; sent := sent w |}
  | TimerFires id =>
      match cycles w !! id with
      | Some c =>
          match phase c with
          | TimerPending => timerFires id c w
          | _ => w
          end
      | None => w
      end
  | RentSettles id o rnd =>
      match cycles w !! id with
      | Some c =>
          match phase c with
          | AwaitingRent => rentSettles id c o rnd w
          | _ => w
          end
      | None => w
      end
  | CarSettles id o rnd =>
      match cycles w !! id with
      | Some c =>
          match phase c with
          | AwaitingCar => carSettles id c o rnd w
          | _ => w
          end
      | None => w
      end
  | Unmount =>
      {| ui := ui w; cycles := cleanup (cycles w); sent := sent w |}
  end.

Definition run (w : World) (events : list Event) : World :=
  foldl step w events.

(** Run [a] is stale: its cleanup has run, so that its [cancel] is set and
    no timer of it is pending. *)
Definition stale (w : World) (a : nat) : Prop :=
  exists c, cycles w !! a = Some c /\ cancel c = true
            /\ phase c <> TimerPending.

(** Two worlds agree on the component state and on run [b]. *)
Definition agreeOn (b : nat) (w1 w2 : World) : Prop :=
  ui w1 = ui w2 /\ cycles w1 !! b = cycles w2 !! b.

(** *** The pager (lines 629-664) *)

(** The pager is rendered when the list is and there is more than one
    page. *)
Definition pagerShown (st : State) : bool :=
  negb (loading st) && (1 <? totalPages st)%Z.

Definition previousDisabled (st : State) : bool :=
  (currentPage st =? 1)%Z.

Definition nextDisabled (st : State) : bool :=
  (currentPage st =? totalPages st)%Z.

(** [Array.from({ length: totalPages }, (_, i) => i + 1)] *)
Definition pageButtons (st : State) : list Z :=
  (fun i => Z.of_nat i + 1)%Z <$> seq 0 (Z.to_nat (totalPages st)).

Inductive PagerButton : Type :=
| Previous
| Next
| PageNumber (page : Z).

(** The call of [handlePageChange] a click on a button of the pager makes;
    [None] when the button is not there or is disabled. *)
Definition pagerClick (b : PagerButton) (st : State) : option Event :=
  if pagerShown st then
    match b with
    | Previous =>
        if previousDisabled st then None
        else Some (HandlePageChange (currentPage st - 1))
    | Next =>
        if nextDisabled st then None
        else Some (HandlePageChange (currentPage st + 1))
    | PageNumber page =>
        if bool_decide (page ∈ pageButtons st)
        then Some (HandlePageChange page)
        else None
    end
  else None.

(** *** The details dialog (lines 615-619 and 668-782) *)

(** [selectedListing] and [dialogOpen]. *)
Record Detail : Type := {
  selectedListing : option Listing;
  dialogOpen : bool;
}.

Definition initialDetail : Detail :=
  {| selectedListing := None; dialogOpen := false |}.

(** The click on [View Details] of a card. *)
Definition viewDetails (listing : Listing) (d : Detail) : Detail :=
  {| selectedListing := Some listing; dialogOpen := true |}.

(** [onOpenChange] of the dialog. *)
Definition onOpenChange (o : bool) (d : Detail) : Detail :=
  {| selectedListing := if o then selectedListing d else None;
     dialogOpen := o |}.

(** The click on [Close]. *)
Definition closeClicked (d : Detail) : Detail :=
  {| selectedListing := selectedListing d; dialogOpen := false |}.

Definition conditionOf (l : Listing) : Z :=
  match l with
  | PropertyItem p => PropertyListing.condition p
  | CarItem c => CarListing.condition c
  end.

(** [selectedListing?.condition ?? 85] *)
Definition shownCondition (d : Detail) : Z :=
  default 85%Z (conditionOf <$> selectedListing d).

(** The label beside the condition score. *)
Definition conditionLabel (c : Z) : string :=
  if (90 <=? c)%Z then "Excellent"
  else if (80 <=? c)%Z then "Very Good"
  else "Good".

(** [selectedListing?.image?.startsWith("http")]: whether the dialog shows
    the image rather than the placeholder; [None] when the call throws,
    the image being neither a string nor nullish. *)
Definition showsPhoto (d : Detail) : option bool :=
  match selectedListing d with
  | None => Some false
  | Some (PropertyItem p) =>
      Some (String.prefix "http" (PropertyListing.image p))
  | Some (CarItem c) =>
      match CarListing.image c with
      | JStr s => Some (String.prefix "http" s)
      | JUndefined | JNull => Some false
      | _ => None
      end
  end.

(** *** Notions for stating what the page keeps *)

Definition isString (v : JsVal) : bool :=
  match v with
  | JStr _ => true
  | _ => false
  end.

(** The records with a truthy [propertyType] and a truthy [addressLine1]
    that is not a string: on them [p.addressLine1.split] is not a
    function. *)
Definition throwsOn (p : RawRecord) : bool :=
  truthy (get p "propertyType") && truthy (get p "addressLine1")
  && negb (isString (get p "addressLine1")).

(** A primitive of JSON: a string, a number, a boolean or [null]
    ([undefined] standing for a missing member). *)
Definition primitive (v : JsVal) : bool :=
  match v with
  | JArr _ | JObj _ | JFun _ => false
  | _ => true
  end.

(** A record whose members are all primitives. *)
Definition flat (r : RawRecord) : Prop :=
  forall k, primitive (get r k) = true.

(** An object that has a member [toString] of its own. *)
Definition ownsToString (v : JsVal) : Prop :=
  exists m, v = JObj m /\ is_Some (m !! "toString").

Definition paramsOf (r : Request) : list (string * string) :=
  match r with
  | RentCastRequest params _ => params
  | MarketCheckRequest params => params
  end.

(** The requests run [a] has sent. *)
Definition sentBy (a : nat) (w : World) : list Request :=
  snd <$> filter (fun x => fst x = a) (sent w).

(** The timer of run [a] was cleared before it fired. *)
Definition cleared (w : World) (a : nat) : Prop :=
  exists c, cycles w !! a = Some c /\ phase c = TimerCleared.

(** Every run but the newest is cancelled with no timer pending, and the
    newest run captured the filters the page now has. *)
Definition oneLiveRun (w : World) : Prop :=
  (forall i c, cycles w !! i = Some c -> S i < length (cycles w) ->
               cancel c = true /\ phase c <> TimerPending)
  /\ exists c, last (cycles w) = Some c
               /\ seenFilters c = filters (ui w)
               /\ seenCarFilters c = carFilters (ui w).

End Page.
End Listings.

(** ** A concrete runtime for closed examples

    Integer numbers ([None] is [NaN]), ASCII case folding and white space,
    and grouping of thousands with commas. *)

Module PlainHost.
Import Js.

Definition lowerAscii (a : ascii) : ascii :=
  let n := nat_of_ascii a in
  if (65 <=? n)%nat && (n <=? 90)%nat then ascii_of_nat (n + 32) else a.

Fixpoint lower (s : string) : string :=
  match s with
  | EmptyString => EmptyString
  | String a s' => String (lowerAscii a) (lower s')
  end.

Definition isSpace (a : ascii) : bool :=
  let n := nat_of_ascii a in
  (n =? 32)%nat || ((9 <=? n)%nat && (n <=? 13)%nat).

Fixpoint trimStart (s : string) : string :=
  match s with
  | EmptyString => EmptyString
  | String a s' => if isSpace a then trimStart s' else s
  end.

Definition trimBoth (s : string) : string :=
  String.rev (trimStart (String.rev (trimStart s))).

(** The digits of a number, least significant first, with a comma after
    every third one that is followed by another. *)
Fixpoint groupRev (digits : list ascii) (seen : nat) : list ascii :=
  match digits with
  | [] => []
  | d :: rest =>
      match rest with
      | [] => [d]
      | _ :: _ =>
          if (seen =? 2)%nat then d :: ","%char :: groupRev rest 0
          else d :: groupRev rest (S seen)
      end
  end.

Definition grouped (z : Z) : string :=
  let digits := list_ascii_of_string (pretty (Z.abs z)) in
  let body := string_of_list_ascii (rev (groupRev (rev digits) 0)) in
  if (z <? 0)%Z then "-" +:+ body else body.

Definition isDigit (a : ascii) : bool :=
  let n := nat_of_ascii a in (48 <=? n)%nat && (n <=? 57)%nat.

Fixpoint digitsValue (s : string) (acc : Z) : option Z :=
  match s with
  | EmptyString => Some acc
  | String a s' =>
      if isDigit a
      then digitsValue s' (10 * acc + Z.of_nat (nat_of_ascii a - 48))%Z
      else None
  end.

Definition ofString (s : string) : option Z := digitsValue (trimBoth s) 0.

Definition showNumber (show : Z -> string) (n : option Z) : string :=
  match n with
  | Some z => show z
  | None => "NaN"
  end.

#[export] Instance host : Host := {|
  number := option Z;
  num_truthy n := match n with Some z => negb (z =? 0)%Z | None => false end;
  num_toString := showNumber pretty;
  num_toLocaleString := showNumber grouped;
  num_ofString := ofString;
  num_ofZ := Some;
  num_NaN := None;
  toLowerCase := lower;
  trim := trimBoth;
  trim_empty := eq_refl;
  fun_toString name := "function " +:+ name +:+ "() { [native code] }";
|}.

#[export] Instance env : Listings.Env := {|
  Listings.demoCarImg := "/assets/IMG_6728.jpg";
  Listings.RENTCAST_API_KEY := "rentcast-key";
  Listings.MARKETCHECK_API_KEY := "marketcheck-key";
|}.

End PlainHost.

(** ** The specification's own words *)

Module Spec.
Import Js Listings.

Section Words.
Context `{host : Host}.

(** A record exposes a field: the key is present, whatever its value. *)
Definition exposes (item : RawRecord) (k : string) : Prop :=
  is_Some (item !! k).

(** The query occurs in a text as a case-insensitive substring. *)
Definition occursIn (q s : string) : Prop :=
  exists pre post, toLowerCase s = pre +:+ toLowerCase q +:+ post.

(** The fields searched for a listing kind: title and price always, plus
    location and sqft for the property kind, or details, year and mileage
    for the vehicle kind.  A field the listing lacks reads as empty. *)
Definition searchedFields (kind : ListingType) (l : Listing) : list string :=
  [default "" (titleOf l); default "" (priceOf l)] ++
  match kind with
  | property => [default "" (locationOf l); default "" (sqftOf l)]
  | car =>
      [default "" (detailsOf l); default "" (yearOf l);
       default "" (mileageOf l)]
  end.

Definition queryOccurs (kind : ListingType) (q : string) (l : Listing)
  : Prop :=
  exists s, s ∈ searchedFields kind l /\ occursIn q s.

(** An event of run [a] of the fetch effect: its timer firing or one of
    its two requests settling. *)
Definition ofCycle (a : nat) (e : Event) : Prop :=
  match e with
  | TimerFires i | RentSettles i _ _ | CarSettles i _ _ => i = a
  | _ => False
  end.

(** A change of one of the two filter-state objects. *)
Definition isFilterChange (e : Event) : Prop :=
  match e with
  | SetFilters _ | SetCarFilters _ => True
  | _ => False
  end.

End Words.
End Spec.

(** ** Sample inputs for the closed examples *)

Module Examples.
Import Js PlainHost.

Section ChatInputs.
Import Chat.

Definition fiveListings : list RawRecord :=
  [ {[ "address" := JStr "1 Elm St" ]};
    {[ "address" := JStr "2 Elm St" ]};
    {[ "make" := JStr "Toyota" ]};
    {[ "address" := JStr "4 Elm St" ]};
    {[ "address" := JStr "5 Elm St" ]} ].

Definition typedPrompt : State :=
  {| messages := [greeting];
     input := "Find luxury apartments in downtown areas";
     isLoading := false |}.

Definition enterKey : KeyboardEvent :=
  {| key := "Enter"; shiftKey := false |}.

Definition fiveReply : Settled :=
  Replied {| reply := None; data_listings := Some fiveListings |}.

End ChatInputs.

Section ListingsInputs.
Import Listings.

Definition noise : nat -> Z := fun _ => 12%Z.

Definition rawCondo : RawRecord :=
  {[ "propertyType" := JStr "Condo";
     "addressLine1" := JStr "123 Main St";
     "price" := JNum (Some 350000%Z) ]}.

Definition rawHonda : RawRecord :=
  {[ "make" := JStr "Honda"; "model" := JStr "Civic";
     "price" := JNum (Some 18500%Z) ]}.

Definition hondaResponse : Fetched CarJson :=
  Answered true (Some {| json_listings := Some [rawHonda] |}).

Definition tenProperties : list RawRecord :=
  replicate 9 ({[ "propertyType" := JStr "Apartment" ]} : RawRecord)
  ++ [({[ "propertyType" := JStr "Condo" ]} : RawRecord)].

Definition threeBedrooms (f : Filters) : Filters :=
  {| city := city f; propertyType := propertyType f; bedrooms := "3";
     bathrooms := bathrooms f; sqftMin := sqftMin f; sqftMax := sqftMax f |}.

Definition twoListings : list Listing :=
  [ PropertyItem
      {| PropertyListing.id := JStr "a";
         PropertyListing.title := "Condo on 123 St";
         PropertyListing.location := "Richardson, TX";
         PropertyListing.price := "$350,000";
         PropertyListing.bedrooms := JStr "—";
         PropertyListing.bathrooms := JStr "—";
         PropertyListing.sqft := "N/A";
         PropertyListing.image := "";
         PropertyListing.condition := 82 |};
    PropertyItem
      {| PropertyListing.id := JStr "b";
         PropertyListing.title := "Apartment";
         PropertyListing.location := "Plano, TX";
         PropertyListing.price := "N/A";
         PropertyListing.bedrooms := JStr "—";
         PropertyListing.bathrooms := JStr "—";
         PropertyListing.sqft := "1,200 sq ft";
         PropertyListing.image := "";
         PropertyListing.condition := 90 |} ].

Definition rawNumberedAddress : RawRecord :=
  {[ "propertyType" := JStr "Condo";
     "addressLine1" := JNum (Some 42%Z) ]}.

Definition rawNumberedPhoto : RawRecord :=
  {[ "make" := JStr "Honda";
     "media" := JObj {[ "photo_links" := JArr [JNum (Some 5%Z)] ]} ]}.

Definition tenLoaded : World :=
  run mount
    [TimerFires 0; RentSettles 0 (Answered true (Some tenProperties)) noise;
     CarSettles 0 (Answered false None) noise].

End ListingsInputs.

End Examples.

(** ** Properties of the chat page *)

Section ChatProperties.
Import Js Chat.
Context `{host : Host}.

Lemma slice_front {A} (l : list A) (n : nat) :
  slice l 0 (Z.of_nat n) = take n l.
Proof.
  unfold slice, relIndex. cbn [Z.ltb Z.compare].
  destruct (Z.ltb_spec (Z.of_nat n) 0) as [Hneg|_]; [lia|].
  rewrite (Z.min_l 0) by lia.
  change (Z.to_nat 0) with 0%nat. rewrite drop_0, Z.sub_0_r.
  destruct (le_lt_dec n (length l)) as [Hle|Hgt].
  - rewrite Z.min_l by lia. rewrite Nat2Z.id. reflexivity.
  - rewrite Z.min_r by lia. rewrite Nat2Z.id.
    rewrite !take_ge by lia. reflexivity.
Qed.

Lemma logicalOr_truthy (a b : JsVal) :
  truthy (logicalOr a b) = truthy a || truthy b.
Proof.
  unfold logicalOr. destruct (truthy a) eqn:Ha; [exact Ha | reflexivity].
Qed.

Lemma strictEqStr_spec (v : JsVal) (s : string) :
  strictEqStr v s = true <-> v = JStr s.
Proof.
  destruct v; cbn; try (split; [discriminate | congruence]).
  rewrite String.eqb_eq. split; [intros ->; reflexivity | congruence].
Qed.

Lemma truthy_isCar (item : RawRecord) :
  truthy (isCar item) = true <->
  truthy (get item "make") = true \/
  truthy (get item "bodyType") = true \/
  get item "source" = JStr "Cars.com".
Proof.
  unfold isCar. rewrite !logicalOr_truthy, !orb_true_iff. cbn [truthy].
  rewrite strictEqStr_spec. reflexivity.
Qed.

Lemma layout_car (item : RawRecord) :
  layout item = CarLayout <-> truthy (isCar item) = true.
Proof.
  unfold layout. destruct (truthy (isCar item)); cbn; split; congruence.
Qed.

Lemma layout_property (item : RawRecord) :
  layout item = PropertyLayout <-> truthy (isCar item) = false.
Proof.
  unfold layout. destruct (truthy (isCar item)); cbn; split; congruence.
Qed.

Lemma truthy_isCar_false (item : RawRecord) :
  truthy (isCar item) = false <->
  truthy (get item "make") = false /\
  truthy (get item "bodyType") = false /\
  get item "source" <> JStr "Cars.com".
Proof.
  unfold isCar. rewrite !logicalOr_truthy, !orb_false_iff. cbn [truthy].
  rewrite <- strictEqStr_spec, not_true_iff_false. reflexivity.
Qed.

(** C5 (as amended).  A chat record is laid out as a vehicle exactly when
    its [make] is truthy, or its [bodyType] is truthy, or its [source] is
    the string [Cars.com]; otherwise as a property.  [{ make: "Toyota" }]
    is a vehicle, [{ address: "123 Main St" }] and [{}] are properties, and
    a record with both [make] and [address] is a vehicle. *)
Theorem isCar_classifies_by_truthy_markers (item : RawRecord) :
  (layout item = CarLayout <->
     truthy (get item "make") = true \/
     truthy (get item "bodyType") = true \/
     get item "source" = JStr "Cars.com")
  /\ (layout item = PropertyLayout <->
        truthy (get item "make") = false /\
        truthy (get item "bodyType") = false /\
        get item "source" <> JStr "Cars.com")
  /\ layout {[ "make" := JStr "Toyota" ]} = CarLayout
  /\ layout {[ "address" := JStr "123 Main St" ]} = PropertyLayout
  /\ layout ∅ = PropertyLayout
  /\ layout (<[ "make" := JStr "Toyota" ]>
               {[ "address" := JStr "123 Main St" ]}) = CarLayout.
Proof.
  split; [rewrite layout_car; apply truthy_isCar|].
  split; [rewrite layout_property; apply truthy_isCar_false|].
  repeat apply conj; vm_compute; reflexivity.
Qed.


Lemma hasListings_cons (data : ChatData) (l : list RawRecord) :
  data_listings data = Some l -> l <> [] -> hasListings data = true.
Proof.
  intros Hl Hne. unfold hasListings. rewrite Hl.
  destruct l as [|x l']; [congruence|]. apply Z.ltb_lt. cbn [length]. lia.
Qed.

(** C6.  A send that passes the guard, answered with a non-empty array of
    [n] listings, appends the user message and then exactly one assistant
    message with empty content and the first [min n 3] listings; earlier
    messages and the user message stay as they were. *)
Theorem handleSend_keeps_first_three (st : State) (t1 t2 : Z)
    (data : ChatData) (l : list RawRecord) :
  trim (input st) <> "" ->
  isLoading st = false ->
  data_listings data = Some l ->
  l <> [] ->
  let userMessage :=
    {| id := pretty t1; role := user; listings := None;
       content := input st |} in
  let listingsMessage :=
    {| id := pretty (t2 + 1)%Z; role := assistant;
       listings := Some (take 3 l); content := "" |} in
  let st1 := (handleSend t1 st).1 in
  let st2 := (handleSend_settled t2 (Replied data) st1).1 in
  messages st1 = messages st ++ [userMessage]
  /\ messages st2 = messages st ++ [userMessage; listingsMessage]
  /\ length (take 3 l) = Nat.min (length l) 3
  /\ (length l = 5%nat -> length (take 3 l) = 3%nat).
Proof.
  intros Htrim Hload Hl Hne userMessage listingsMessage st1 st2.
  assert (Hst1 : st1 =
    {| messages := messages st ++ [userMessage]; input := "";
       isLoading := true |}).
  { subst st1. unfold handleSend.
    apply String.eqb_neq in Htrim. rewrite Htrim, Hload. reflexivity. }
  split; [rewrite Hst1; reflexivity|].
  split.
  - subst st2. unfold handleSend_settled.
    rewrite (hasListings_cons data l Hl Hne), Hl.
    cbn [default from_option Datatypes.id fst messages].
    rewrite (slice_front l 3 : slice l 0 3 = take 3 l), Hst1. cbn [messages].
    rewrite <- app_assoc. reflexivity.
  - rewrite length_take. split; lia.
Qed.

(** C7 (what the code does).  With no listings (absent or empty) the one
    appended assistant message carries the reply text, or [fallbackText]
    when the reply is absent or empty; and [fallbackText], as the source
    file stores it, is not the sentence of the specification: its
    apostrophe is the three characters of a wrongly decoded one. *)
Theorem handleSend_fallback_text_garbled (st : State) (t : Z)
    (r : option string) :
  let appended (ls : option (list RawRecord)) :=
    messages
      (handleSend_settled t (Replied {| reply := r; data_listings := ls |})
         st).1 in
  let fallbackMessage :=
    {| id := pretty (t + 1)%Z; role := assistant; listings := None;
       content := replyOr r fallbackText |} in
  appended None = messages st ++ [fallbackMessage]
  /\ appended (Some []) = messages st ++ [fallbackMessage]
  /\ replyOr None fallbackText = fallbackText
  /\ replyOr (Some "") fallbackText = fallbackText
  /\ replyOr (Some "Here you go") fallbackText = "Here you go"
  /\ fallbackText <> "I couldn't find any matching listings."
  /\ fallbackText =
       "I couldn" +:+ "â€™" +:+ "t find any matching listings.".
Proof.
  repeat apply conj; try reflexivity. discriminate.
Qed.

(** C10.  With an empty or whitespace-only input, or while a send is in
    flight, [handleSend] changes nothing and issues no request. *)
Theorem handleSend_guard_noop (st : State) (t : Z) :
  input st = "" \/ trim (input st) = "" \/ isLoading st = true ->
  handleSend t st = (st, None).
Proof.
  intros H. unfold handleSend.
  assert (Hg : (trim (input st) =? "") || isLoading st = true).
  { apply orb_true_iff. destruct H as [H|[H|H]].
    - left. rewrite H, trim_empty. reflexivity.
    - left. rewrite H. reflexivity.
    - right. exact H. }
  rewrite Hg. reflexivity.
Qed.

End ChatProperties.

(** ** Properties of the listings page *)

Section FilterLemmas.
Import Js Listings.
Context `{host : Host}.

Lemma append_cons (a : ascii) (s t : string) :
  String a s +:+ t = String a (s +:+ t).
Proof. reflexivity. Qed.

Lemma append_empty (t : string) : "" +:+ t = t.
Proof. reflexivity. Qed.

Lemma prefix_app (q s : string) :
  String.prefix q s = true <-> exists post, s = q +:+ post.
Proof.
  revert s. induction q as [|a q IH]; intros [|b s]; cbn.
  - split; [intros _; exists ""; reflexivity | reflexivity].
  - split; [intros _; exists (String b s); reflexivity | reflexivity].
  - split; [discriminate | intros [post Hp]; discriminate].
  - setoid_rewrite append_cons.
    destruct (ascii_dec a b) as [->|Hab].
    + rewrite IH. split; intros [post Hp]; exists post; congruence.
    + split; [discriminate | intros [post Hp]; congruence].
Qed.

Lemma includes_app (s q : string) :
  includes s q = true <-> exists pre post, s = pre +:+ q +:+ post.
Proof.
  induction s as [|a s IH]; cbn [includes]; rewrite orb_true_iff, prefix_app.
  - split.
    + intros [[post Hp]|Hf]; [exists "", post; exact Hp | discriminate].
    + intros (pre & post & Hp). left.
      destruct pre; [exists post; exact Hp | discriminate].
  - rewrite IH. split.
    + intros [[post Hp]|(pre & post & Hp)].
      * exists "", post. exact Hp.
      * exists (String a pre), post. rewrite append_cons. congruence.
    + intros (pre & post & Hp). destruct pre as [|b pre].
      * left. exists post. exact Hp.
      * right. exists pre, post. rewrite append_cons in Hp. congruence.
Qed.

Lemma orEmpty_id (s : string) : orEmpty s = s.
Proof.
  unfold orEmpty. destruct (String.eqb_spec s ""); congruence.
Qed.

Lemma lowered_occurs (q : string) (member : option string) :
  includes (lowered member) (toLowerCase q) = true <->
  Spec.occursIn q (default "" member).
Proof.
  unfold lowered, Spec.occursIn. rewrite orEmpty_id. apply includes_app.
Qed.

Lemma matchesQuery_occurs (kind : ListingType) (q : string) (l : Listing) :
  matchesQuery kind (toLowerCase q) l = true <-> Spec.queryOccurs kind q l.
Proof.
  unfold Spec.queryOccurs, Spec.searchedFields, matchesQuery.
  destruct (includes (lowered (titleOf l)) (toLowerCase q)) eqn:Ht.
  { apply lowered_occurs in Ht. split; [|reflexivity].
    intros _. eexists. split; [|exact Ht]. set_solver. }
  destruct (includes (lowered (priceOf l)) (toLowerCase q)) eqn:Hp.
  { apply lowered_occurs in Hp. split; [|reflexivity].
    intros _. eexists. split; [|exact Hp]. set_solver. }
  assert (Hnt : ~ Spec.occursIn q (default "" (titleOf l))).
  { rewrite <- lowered_occurs, Ht. discriminate. }
  assert (Hnp : ~ Spec.occursIn q (default "" (priceOf l))).
  { rewrite <- lowered_occurs, Hp. discriminate. }
  destruct kind; rewrite ?orb_true_iff, !lowered_occurs; split.
  - intros [H|H]; eexists; (split; [|exact H]); set_solver.
  - intros (s & Hin & Hs).
    apply elem_of_app in Hin as [Hin|Hin];
      repeat (apply elem_of_cons in Hin as [->|Hin]); try tauto;
      apply elem_of_nil in Hin; contradiction.
  - intros [[H|H]|H]; eexists; (split; [|exact H]); set_solver.
  - intros (s & Hin & Hs).
    apply elem_of_app in Hin as [Hin|Hin];
      repeat (apply elem_of_cons in Hin as [->|Hin]); try tauto;
      apply elem_of_nil in Hin; contradiction.
Qed.

End FilterLemmas.

#[global] Instance queryOccurs_dec `{host : Js.Host}
    (kind : Listings.ListingType) (q : string) (l : Listings.Listing)
  : Decision (Spec.queryOccurs kind q l).
Proof.
  destruct (Listings.matchesQuery kind (Js.toLowerCase q) l) eqn:Hm.
  - left. apply matchesQuery_occurs. exact Hm.
  - right. rewrite <- matchesQuery_occurs, Hm. discriminate.
Defined.

Section FilterProperties.
Import Js Listings.
Context `{host : Host}.

Lemma filter_matches (kind : ListingType) (q : string) (coll : list Listing) :
  List.filter (matchesQuery kind (toLowerCase q)) coll =
  filter (Spec.queryOccurs kind q) coll.
Proof.
  induction coll as [|l coll IH]; [reflexivity|].
  cbn [List.filter]. rewrite filter_cons, IH.
  destruct (decide (Spec.queryOccurs kind q l)) as [Hy|Hn];
    rewrite <- matchesQuery_occurs in *.
  - rewrite Hy. reflexivity.
  - apply not_true_is_false in Hn. rewrite Hn. reflexivity.
Qed.

Lemma filter_twice {A} (f : A -> bool) (l : list A) :
  List.filter f (List.filter f l) = List.filter f l.
Proof.
  induction l as [|x l IH]; [reflexivity|].
  cbn [List.filter]. destruct (f x) eqn:Hx; [|exact IH].
  cbn [List.filter]. rewrite Hx, IH. reflexivity.
Qed.

(** C8.  With an empty or whitespace-only query the filter returns the
    collection as it is; otherwise it returns, in the original order,
    exactly the listings in which the query occurs as a case-insensitive
    substring of one of the fields searched for the kind. *)
Theorem filterListings_correct (kind : ListingType) (q : string)
    (coll : list Listing) :
  (q = "" \/ trim q = "" -> filterListings kind q coll = coll)
  /\ (trim q <> "" ->
      filterListings kind q coll = filter (Spec.queryOccurs kind q) coll)
  /\ sublist (filterListings kind q coll) coll.
Proof.
  unfold filterListings. repeat apply conj.
  - intros [->|Hq]; [rewrite trim_empty | rewrite Hq]; reflexivity.
  - intros Hq. apply String.eqb_neq in Hq. rewrite Hq.
    apply filter_matches.
  - destruct (trim q =? ""); [reflexivity|].
    rewrite filter_matches. apply sublist_filter.
Qed.

(** C9.  Filtering a filtered sequence again, with the same query and
    kind, gives the same sequence. *)
Theorem filterListings_idempotent (kind : ListingType) (q : string)
    (coll : list Listing) :
  filterListings kind q (filterListings kind q coll) =
  filterListings kind q coll.
Proof.
  unfold filterListings. destruct (trim q =? ""); [reflexivity|].
  apply filter_twice.
Qed.

End FilterProperties.

Section CycleProperties.
Import Js Listings.
Context `{host : Host} `{env : Env}.

Lemma step_timer (w : World) (id : nat) (c : Cycle) :
  cycles w !! id = Some c -> phase c = TimerPending ->
  step w (TimerFires id) = timerFires id c w.
Proof. intros Hc Hp. cbn [step]. rewrite Hc, Hp. reflexivity. Qed.

Lemma step_rent (w : World) (id : nat) (c : Cycle) o rnd :
  cycles w !! id = Some c -> phase c = AwaitingRent ->
  step w (RentSettles id o rnd) = rentSettles id c o rnd w.
Proof. intros Hc Hp. cbn [step]. rewrite Hc, Hp. reflexivity. Qed.

Lemma step_car (w : World) (id : nat) (c : Cycle) o rnd :
  cycles w !! id = Some c -> phase c = AwaitingCar ->
  step w (CarSettles id o rnd) = carSettles id c o rnd w.
Proof. intros Hc Hp. cbn [step]. rewrite Hc, Hp. reflexivity. Qed.

Lemma lookup_set (cs : list Cycle) (id : nat) (c c' : Cycle) :
  cs !! id = Some c -> <[id := c']> cs !! id = Some c'.
Proof. intros Hc. apply list_lookup_insert_eq. eapply lookup_lt_Some, Hc. Qed.

(** One whole run of the timer callback, from the timer to the end. *)
Lemma run_cycle (w : World) (id : nat) (c : Cycle) ro r1 co r2 :
  cycles w !! id = Some c -> phase c = TimerPending ->
  let st := setLoading true (ui w) in
  let w' :=
    run w [TimerFires id; RentSettles id ro r1; CarSettles id co r2] in
  match rentDataOf ro ≫= transformedProperties (seenFilters c) r1 with
  | Some ps =>
      let st1 := if cancel c then st else setPropertyListings ps st in
      ui w' =
        finally c
          match carDataOf co ≫= transformedCars r2 with
          | Some cars => if cancel c then st1 else setCarListings cars st1
          | None => st1
          end
      /\ sent w' =
           sent w ++ [(id, rentcastRequest (seenFilters c));
                      (id, marketcheckRequest (seenCarFilters c))]
  | None =>
      ui w' = finally c st
      /\ sent w' = sent w ++ [(id, rentcastRequest (seenFilters c))]
  end.
Proof.
  intros Hc Hp st w'. subst w'. unfold run. cbn [foldl].
  rewrite (step_timer w id c Hc Hp).
  assert (H1 : cycles (timerFires id c w) !! id
               = Some (setPhase AwaitingRent c)).
  { apply (lookup_set _ _ c), Hc. }
  rewrite (step_rent _ id _ ro r1 H1 eq_refl).
  unfold rentSettles. cbn [seenFilters setPhase cancel seenCarFilters].
  destruct (rentDataOf ro ≫= transformedProperties (seenFilters c) r1)
    as [ps|] eqn:Hps.
  - match goal with |- context [step ?w0 (CarSettles _ _ _)] =>
      assert (H2 : cycles w0 !! id
                   = Some (setPhase AwaitingCar (setPhase AwaitingRent c)))
    end.
    { cbn [cycles]. apply (lookup_set _ _ (setPhase AwaitingRent c)), H1. }
    rewrite (step_car _ id _ co r2 H2 eq_refl).
    unfold carSettles. cbn [cancel setPhase ui sent timerFires].
    destruct (carDataOf co ≫= transformedCars r2) as [cars|]; cbn [ui sent];
      (split; [reflexivity | rewrite <- app_assoc; reflexivity]).
  - match goal with |- context [step ?w0 (CarSettles _ _ _)] =>
      assert (H2 : cycles w0 !! id
                   = Some (setPhase Finished (setPhase AwaitingRent c)))
    end.
    { cbn [cycles]. apply (lookup_set _ _ (setPhase AwaitingRent c)), H1. }
    cbn [step]. rewrite H2. cbn [phase setPhase ui sent timerFires].
    split; reflexivity.
Qed.

(** Read what [run_cycle] says of a run that is not cancelled, keeping the
    final world folded. *)
Ltac read_cycle H Hcancel :=
  cbv zeta in H;
  match type of H with
  | context [run ?w ?evs] => set (w' := run w evs) in *; clearbody w'
  end;
  cbn [rentDataOf carDataOf mbind option_bind] in H;
  unfold finally in H; rewrite ?Hcancel in H.

(** C1 (as amended).  In a run of the fetch cycle that is not cancelled: a
    non-2xx status from one source degrades that source to an empty
    result (for vehicles, the demo record alone) and the other source is
    still normalized and applied.  A rejected request is caught by the one
    [try] around both searches: when the property request rejects, the
    vehicle request is never sent and both collections stay as they were;
    when the vehicle request rejects, the property results already applied
    stay and the vehicle collection stays as it was.  The loading flag is
    cleared in every case.  (The vehicle collection also stays as it was
    when the vehicle normalizer throws on a record of the response.) *)
Theorem fetch_cycle_partial_failure (w : World) (id : nat) (c : Cycle)
    (r1 r2 : nat -> Z) :
  cycles w !! id = Some c ->
  phase c = TimerPending ->
  cancel c = false ->
  let cycle ro co :=
    run w [TimerFires id; RentSettles id ro r1; CarSettles id co r2] in
  (forall j cj,
      let w' := cycle (Answered false j) (Answered true (Some cj)) in
      propertyListings (ui w') = []
      /\ carListings (ui w') =
           default (carListings (ui w))
             (transformedCars r2 (default [] (json_listings cj)))
      /\ loading (ui w') = false)
  /\ (forall data ps j,
        transformedProperties (seenFilters c) r1 data = Some ps ->
        let w' := cycle (Answered true (Some data)) (Answered false j) in
        propertyListings (ui w') = ps
        /\ carListings (ui w') = [demoCar]
        /\ loading (ui w') = false)
  /\ (forall co,
        let w' := cycle Rejected co in
        propertyListings (ui w') = propertyListings (ui w)
        /\ carListings (ui w') = carListings (ui w)
        /\ loading (ui w') = false
        /\ sent w' = sent w ++ [(id, rentcastRequest (seenFilters c))])
  /\ (forall data ps,
        transformedProperties (seenFilters c) r1 data = Some ps ->
        let w' := cycle (Answered true (Some data)) Rejected in
        propertyListings (ui w') = ps
        /\ carListings (ui w') = carListings (ui w)
        /\ loading (ui w') = false).
Proof.
  intros Hc Hp Hcancel cycle. subst cycle. cbv zeta.
  repeat apply conj.
  - intros j cj.
    pose proof (run_cycle w id c (Answered false j) r1
                  (Answered true (Some cj)) r2 Hc Hp) as H.
    read_cycle H Hcancel. destruct H as [-> _].
    destruct (transformedCars r2 (default [] (json_listings cj)));
      repeat split.
  - intros data ps j Hps.
    pose proof (run_cycle w id c (Answered true (Some data)) r1
                  (Answered false j) r2 Hc Hp) as H.
    read_cycle H Hcancel. rewrite Hps in H.
    destruct H as [-> _]. repeat split.
  - intros co.
    pose proof (run_cycle w id c Rejected r1 co r2 Hc Hp) as H.
    read_cycle H Hcancel. destruct H as [-> ->]. repeat split.
  - intros data ps Hps.
    pose proof (run_cycle w id c (Answered true (Some data)) r1
                  Rejected r2 Hc Hp) as H.
    read_cycle H Hcancel. rewrite Hps in H.
    destruct H as [-> _]. repeat split.
Qed.

End CycleProperties.

Section StaleProperties.
Import Js Listings.
Context `{host : Host} `{env : Env}.

Lemma finally_cancelled (c : Cycle) (st : State) :
  cancel c = true -> finally c st = st.
Proof. intros H. unfold finally. rewrite H. reflexivity. Qed.

Lemma stale_cleanup (cs : list Cycle) (a : nat) (c : Cycle) :
  cs !! a = Some c -> cancel c = true -> phase c <> TimerPending ->
  exists c', cleanup cs !! a = Some c' /\ cancel c' = true
             /\ phase c' <> TimerPending.
Proof.
  intros Hc Hcan Hph. unfold cleanup. rewrite list_lookup_alter.
  case_decide as Hi.
  - rewrite Hi, Hc. exists (cleanupCycle c). split; [reflexivity|].
    split; [reflexivity|]. cbn. destruct (phase c); congruence.
  - exists c. auto.
Qed.

Lemma stale_set (w : World) (a i : nat) (c c' : Cycle) :
  stale w a ->
  cycles w !! i = Some c ->
  cancel c' = cancel c ->
  phase c' <> TimerPending ->
  exists d, <[i := c']> (cycles w) !! a = Some d /\ cancel d = true
            /\ phase d <> TimerPending.
Proof.
  intros (d & Hd & Hcan & Hph) Hc Hcc Hpc.
  destruct (decide (i = a)) as [->|Hne].
  - exists c'. rewrite (lookup_set _ _ c c' Hc).
    split; [reflexivity|]. split; [|exact Hpc]. congruence.
  - exists d. rewrite list_lookup_insert_ne by exact Hne. auto.
Qed.

(** Every event keeps a stale run stale, and an event of the stale run
    itself leaves the component state as it is. *)
Lemma stale_step (w : World) (a : nat) (e : Event) :
  stale w a ->
  stale (step w e) a /\ (Spec.ofCycle a e -> ui (step w e) = ui w).
Proof.
  intros Hs. pose proof Hs as (c & Hc & Hcan & Hph).
  destruct e as [k|upd|upd|q|page|i|i o rnd|i o rnd|];
    cbn [step Spec.ofCycle].
  - split; [|contradiction].
    destruct (ListingType_eqb k (activeType (ui w))); exact Hs.
  - split; [|contradiction]. unfold stale, restartCycle. cbn [cycles].
    destruct (stale_cleanup _ _ _ Hc Hcan Hph) as (c' & Hc' & H').
    exists c'. split; [|exact H'].
    rewrite lookup_app_l; [exact Hc'|]. eapply lookup_lt_Some, Hc'.
  - split; [|contradiction]. unfold stale, restartCycle. cbn [cycles].
    destruct (stale_cleanup _ _ _ Hc Hcan Hph) as (c' & Hc' & H').
    exists c'. split; [|exact H'].
    rewrite lookup_app_l; [exact Hc'|]. eapply lookup_lt_Some, Hc'.
  - split; [exact Hs | contradiction].
  - split; [exact Hs | contradiction].
  - destruct (cycles w !! i) as [ci|] eqn:Hi; [|split; [exact Hs|reflexivity]].
    destruct (phase ci) eqn:Hpi; try (split; [exact Hs|reflexivity]).
    split.
    + apply (stale_set w a i ci);
        [exact Hs|exact Hi|reflexivity|discriminate].
    + intros ->. congruence.
  - destruct (cycles w !! i) as [ci|] eqn:Hi; [|split; [exact Hs|reflexivity]].
    destruct (phase ci) eqn:Hpi; try (split; [exact Hs|reflexivity]).
    unfold rentSettles.
    destruct (rentDataOf o ≫= transformedProperties (seenFilters ci) rnd);
      cbn [ui cycles]; (split;
        [apply (stale_set w a i ci);
           [exact Hs|exact Hi|reflexivity|discriminate]
        |intros ->; assert (ci = c) as -> by congruence;
         rewrite ?finally_cancelled, ?Hcan by exact Hcan; reflexivity]).
  - destruct (cycles w !! i) as [ci|] eqn:Hi; [|split; [exact Hs|reflexivity]].
    destruct (phase ci) eqn:Hpi; try (split; [exact Hs|reflexivity]).
    unfold carSettles.
    destruct (carDataOf o ≫= transformedCars rnd); cbn [ui cycles]; (split;
        [apply (stale_set w a i ci);
           [exact Hs|exact Hi|reflexivity|discriminate]
        |intros ->; assert (ci = c) as -> by congruence;
         rewrite ?Hcan, ?finally_cancelled by exact Hcan; reflexivity]).
  - split; [|contradiction]. unfold stale. cbn [cycles].
    apply (stale_cleanup _ _ _ Hc Hcan Hph).
Qed.

Lemma stale_run (w : World) (a : nat) (events : list Event) :
  stale w a -> stale (run w events) a.
Proof.
  revert w. induction events as [|e events IH]; intros w Hs; [exact Hs|].
  apply IH, stale_step, Hs.
Qed.

Lemma stale_run_noop (w : World) (a : nat) (events : list Event) :
  stale w a -> Forall (Spec.ofCycle a) events -> ui (run w events) = ui w.
Proof.
  revert w. induction events as [|e events IH]; intros w Hs Hall;
    [reflexivity|].
  inversion Hall as [|? ? He Hrest]; subst.
  destruct (stale_step w a e Hs) as [Hs' Hui].
  unfold run in *. cbn [foldl]. rewrite (IH _ Hs' Hrest). apply Hui, He.
Qed.

Lemma run_app (w : World) (l1 l2 : list Event) :
  run w (l1 ++ l2) = run (run w l1) l2.
Proof. apply foldl_app. Qed.

(** A change of either filter object makes the run in force stale, in
    whatever phase the change finds it, and puts a fresh run behind it. *)
Lemma superseded (w : World) (a : nat) (ca : Cycle) (change : Event) :
  cycles w !! a = Some ca ->
  S a = length (cycles w) ->
  Spec.isFilterChange change ->
  let wb := step w change in
  stale wb a
  /\ cycles wb !! length (cycles w) =
       Some (newCycle (filters (ui wb)) (carFilters (ui wb))).
Proof.
  intros Hc Hlast Hch wb. subst wb.
  assert (Hlen : pred (length (cycles w)) = a) by lia.
  assert (Hst : forall cs',
             exists c, (cleanup (cycles w) ++ cs') !! a = Some c
                       /\ cancel c = true /\ phase c <> TimerPending).
  { intros cs'. exists (cleanupCycle ca).
    rewrite lookup_app_l.
    - unfold cleanup. rewrite Hlen, list_lookup_alter_eq, Hc.
      repeat split. cbn [cleanupCycle phase].
      destruct (phase ca); discriminate.
    - unfold cleanup. rewrite length_alter. lia. }
  assert (Hnew : forall x,
             (cleanup (cycles w) ++ [x]) !! length (cycles w) = Some x).
  { intros x. apply list_lookup_middle. unfold cleanup.
    rewrite length_alter. reflexivity. }
  destruct change; try contradiction; cbn [step ui cycles];
    unfold stale, restartCycle; cbn [cycles ui];
    (split; [apply Hst|apply Hnew]).
Qed.

(** An event of one run leaves the other runs as they are. *)
Lemma ofCycle_other (w : World) (a b : nat) (e : Event) :
  Spec.ofCycle a e -> a <> b -> cycles (step w e) !! b = cycles w !! b.
Proof.
  intros He Hab.
  destruct e as [k|upd|upd|q|page|i|i o rnd|i o rnd|];
    cbn [Spec.ofCycle] in He; try contradiction; subst i; cbn [step];
    (destruct (cycles w !! a) as [c|]; [|reflexivity]);
    (destruct (phase c); try reflexivity).
  - cbn [timerFires cycles]. apply list_lookup_insert_ne, Hab.
  - unfold rentSettles.
    destruct (rentDataOf o ≫= transformedProperties (seenFilters c) rnd);
      cbn [cycles]; apply list_lookup_insert_ne, Hab.
  - unfold carSettles.
    destruct (carDataOf o ≫= transformedCars rnd);
      cbn [cycles]; apply list_lookup_insert_ne, Hab.
Qed.

(** The events of a stale run leave the component state and the other runs
    as they are. *)
Lemma stale_run_agrees (w : World) (a b : nat) (events : list Event) :
  stale w a -> a <> b -> Forall (Spec.ofCycle a) events ->
  agreeOn b (run w events) w /\ stale (run w events) a.
Proof.
  intros Hs Hab Hall. split; [|apply stale_run, Hs].
  split; [apply (stale_run_noop w a events Hs Hall)|].
  revert w Hs. induction Hall as [|e events He Hall IH]; intros w Hs;
    [reflexivity|].
  unfold run in *. cbn [foldl].
  rewrite (IH (step w e) (proj1 (stale_step w a e Hs))).
  apply (ofCycle_other w a b e He Hab).
Qed.

(** An event of run [b] does the same to two worlds that agree on the
    component state and on run [b]. *)
Lemma agreeOn_step (w1 w2 : World) (b : nat) (e : Event) :
  agreeOn b w1 w2 -> Spec.ofCycle b e ->
  agreeOn b (step w1 e) (step w2 e).
Proof.
  intros [Hui Hb] He.
  destruct e as [k|upd|upd|q|page|i|i o rnd|i o rnd|];
    cbn [Spec.ofCycle] in He; try contradiction; subst i; cbn [step];
    rewrite Hb; (destruct (cycles w2 !! b) as [c|] eqn:Hc;
                 [|split; congruence]);
    (destruct (phase c); try (split; congruence)).
  - split; cbn [timerFires ui cycles]; [rewrite Hui; reflexivity|].
    rewrite (lookup_set _ _ c _ Hb), (lookup_set _ _ c _ Hc). reflexivity.
  - unfold rentSettles.
    destruct (rentDataOf o ≫= transformedProperties (seenFilters c) rnd);
      (split; cbn [ui cycles]; [rewrite Hui; reflexivity|]);
      rewrite (lookup_set _ _ c _ Hb), (lookup_set _ _ c _ Hc); reflexivity.
  - unfold carSettles.
    destruct (carDataOf o ≫= transformedCars rnd);
      (split; cbn [ui cycles]; [rewrite Hui; reflexivity|]);
      rewrite (lookup_set _ _ c _ Hb), (lookup_set _ _ c _ Hc); reflexivity.
Qed.

(** Events of a stale run [a], then an event of run [b]: as if the events
    of [a] had not happened. *)
Lemma stale_then_step (w w' : World) (a b : nat) (events : list Event)
    (e : Event) :
  stale w a -> a <> b -> agreeOn b w w' ->
  Forall (Spec.ofCycle a) events -> Spec.ofCycle b e ->
  stale (step (run w events) e) a
  /\ agreeOn b (step (run w events) e) (step w' e).
Proof.
  intros Hs Hab [Hui Hb] Hall He.
  destruct (stale_run_agrees w a b events Hs Hab Hall) as [[Hui' Hb'] Hs'].
  split; [apply stale_step, Hs'|].
  apply agreeOn_step; [|exact He]. split; congruence.
Qed.

Lemma run_cons (w : World) (e : Event) (events : list Event) :
  run w (e :: events) = run (step w e) events.
Proof. reflexivity. Qed.

(** C2.  Let run A of the fetch effect be the run in force, in whatever
    phase: its timer pending, its property request awaited, its vehicle
    request awaited (the property results of A already applied), or
    finished.  Let a change of a filter object start run B.  Then whatever
    happens next, the timer and the late results of A change nothing in the
    component state, neither a collection nor the loading flag.  And when
    B applies its results, with the events of A coming before, between
    and after the events of B in any way, the two collections are those of
    B at the end and the loading flag is the one B cleared. *)
Theorem stale_cycle_writes_nothing (w : World) (a : nat) (ca : Cycle)
    (change : Event) :
  cycles w !! a = Some ca ->
  S a = length (cycles w) ->
  Spec.isFilterChange change ->
  let b := length (cycles w) in
  let wb := step w change in
  (forall between late,
      Forall (Spec.ofCycle a) late ->
      ui (run (run wb between) late) = ui (run wb between))
  /\ (forall rb r1 cb r2 early amid late last ps cars,
        rentDataOf rb ≫= transformedProperties (filters (ui wb)) r1
          = Some ps ->
        carDataOf cb ≫= transformedCars r2 = Some cars ->
        Forall (Spec.ofCycle a) early ->
        Forall (Spec.ofCycle a) amid ->
        Forall (Spec.ofCycle a) late ->
        Forall (Spec.ofCycle a) last ->
        let final :=
          run wb (early ++ TimerFires b ::
                  amid ++ RentSettles b rb r1 ::
                  late ++ CarSettles b cb r2 :: last) in
        propertyListings (ui final) = ps
        /\ carListings (ui final) = cars
        /\ loading (ui final) = false).
Proof.
  intros Hc Hlast Hch b wb.
  destruct (superseded w a ca change Hc Hlast Hch) as [Hstale Hb].
  fold wb in Hstale, Hb. fold b in Hb. split.
  - intros between late Hlate.
    apply (stale_run_noop _ a); [apply stale_run, Hstale | exact Hlate].
  - intros rb r1 cb r2 early amid late last ps cars Hps Hcars
      Hearly Hamid Hlate Hlast' final. subst final.
    assert (Hab : a <> b) by (subst b; lia).
    rewrite run_app, run_cons, run_app, run_cons, run_app, run_cons.
    destruct (stale_then_step wb wb a b early (TimerFires b) Hstale Hab
                (conj eq_refl eq_refl) Hearly eq_refl) as [Hs1 Ha1].
    destruct (stale_then_step _ _ a b amid (RentSettles b rb r1) Hs1 Hab
                Ha1 Hamid eq_refl) as [Hs2 Ha2].
    destruct (stale_then_step _ _ a b late (CarSettles b cb r2) Hs2 Hab
                Ha2 Hlate eq_refl) as [Hs3 [Hui3 _]].
    rewrite (stale_run_noop _ a last Hs3 Hlast'), Hui3.
    pose proof (run_cycle wb b _ rb r1 cb r2 Hb eq_refl) as H.
    cbv zeta in H. cbn [seenFilters newCycle cancel] in H.
    rewrite Hps, Hcars in H. unfold run in H. cbn [foldl] in H.
    destruct H as [-> _].
    unfold finally. cbn [cancel newCycle]. repeat split.
Qed.

End StaleProperties.

(** Read an equation [e ≫= k = Some v]: [e] returned, and so did [k]. *)
Ltac unbind H :=
  repeat match type of H with
         | mbind _ ?e = Some _ =>
             let E := fresh "E" in
             destruct e eqn:E; cbn [mbind option_bind] in H;
             [|discriminate H]
         end.

Section NormalizerProperties.
Import Js Listings.
Context `{host : Host} `{env : Env}.

Lemma dollar_nonempty (s : string) : "$" +:+ s <> "".
Proof. discriminate. Qed.

Lemma toStr_primitive (v : JsVal) :
  primitive v = true -> is_Some (toStr v).
Proof.
  destruct v as [| |[|]| | | | |]; try discriminate; intros _;
    eexists; reflexivity.
Qed.

Lemma toNumber_primitive (v : JsVal) :
  primitive v = true -> is_Some (toNumber v).
Proof. destruct v; try discriminate; intros _; eexists; reflexivity. Qed.

Lemma primitive_logicalOr (a : JsVal) (s : string) :
  primitive a = true -> primitive (logicalOr a (JStr s)) = true.
Proof.
  intros Ha. unfold logicalOr. destruct (truthy a); [exact Ha|reflexivity].
Qed.

Lemma flat_empty : flat ∅.
Proof. intros k. reflexivity. Qed.

Lemma flat_insert (k : string) (v : JsVal) (r : RawRecord) :
  primitive v = true -> flat r -> flat (<[k := v]> r).
Proof.
  intros Hv Hr k'. unfold get, RawRecord in *.
  destruct (decide (k = k')) as [->|Hne].
  - rewrite lookup_insert_eq. exact Hv.
  - rewrite lookup_insert_ne by exact Hne. apply Hr.
Qed.

(** The price expression of both normalizers, [d] being the text for a
    falsy price. *)
Lemma price_cases (v : JsVal) (d price : string) :
  (if truthy v then amount ← localeNumber v; Some ("$" +:+ amount)
   else Some d) = Some price ->
  (truthy v = true ->
   exists n, toNumber v = Some n /\ price = "$" +:+ num_toLocaleString n)
  /\ (truthy v = false -> price = d).
Proof.
  unfold localeNumber. destruct (truthy v).
  - destruct (toNumber v) as [n|]; [|discriminate]. cbn. intros [= <-].
    split; [intros _; exists n; auto | discriminate].
  - intros [= <-]. split; [discriminate | reflexivity].
Qed.

Lemma transformProperty_price (f : Filters) (rnd : Z) (r : RawRecord)
    (i : nat) (p : PropertyListing.t) :
  transformProperty f rnd r i = Some p ->
  (truthy (get r "price") = true ->
   exists n, toNumber (get r "price") = Some n
             /\ PropertyListing.price p = "$" +:+ num_toLocaleString n)
  /\ (truthy (get r "price") = false -> PropertyListing.price p = "N/A").
Proof.
  unfold transformProperty. intros H. unbind H.
  injection H as <-. cbn [PropertyListing.price].
  eapply price_cases; eassumption.
Qed.

Lemma transformCar_price (rnd : Z) (r : RawRecord) (i : nat)
    (c : CarListing.t) :
  transformCar rnd r i = Some c ->
  (truthy (get r "price") = true ->
   exists n, toNumber (get r "price") = Some n
             /\ CarListing.price c = "$" +:+ num_toLocaleString n)
  /\ (truthy (get r "price") = false -> CarListing.price c = "").
Proof.
  unfold transformCar. intros H. unbind H.
  injection H as <-. cbn [CarListing.price].
  eapply price_cases; eassumption.
Qed.

(** The property callback throws on a record that brings it to
    [p.addressLine1.split] with something that is not a string. *)
Lemma transformProperty_throwsOn (f : Filters) (rnd : Z) (r : RawRecord)
    (i : nat) :
  throwsOn r = true -> transformProperty f rnd r i = None.
Proof.
  unfold throwsOn. rewrite !andb_true_iff, negb_true_iff.
  intros [[Hkind Haddr] Hstr]. unfold transformProperty.
  destruct (logicalOrElse _ _); [|reflexivity]. cbn [mbind option_bind].
  rewrite Hkind, Haddr.
  destruct (toStr (get r "propertyType")); [|reflexivity].
  cbn [mbind option_bind].
  destruct (get r "addressLine1"); try discriminate; reflexivity.
Qed.

Lemma localeNumber_primitive (v : JsVal) :
  primitive v = true -> is_Some (localeNumber v).
Proof.
  intros Hv. unfold localeNumber.
  destruct (toNumber_primitive v Hv) as [n ->]. eexists; reflexivity.
Qed.

(** On a flat record the property callback throws in no other way. *)
Lemma transformProperty_flat (f : Filters) (rnd : Z) (r : RawRecord)
    (i : nat) :
  flat r -> throwsOn r = false -> is_Some (transformProperty f rnd r i).
Proof.
  intros Hflat Hthrow. unfold transformProperty.
  assert (Hor : forall k s, is_Some (toStr (logicalOr (get r k) (JStr s)))).
  { intros k s. apply toStr_primitive, primitive_logicalOr, Hflat. }
  assert (Hnum : forall k, is_Some (localeNumber (get r k))).
  { intros k. apply localeNumber_primitive, Hflat. }
  unfold logicalOrElse.
  destruct (Hor "addressLine1" "addr") as [addr ->].
  destruct (Hor "city" (city f)) as [town ->].
  destruct (Hor "state" "TX") as [state ->].
  destruct (Hnum "price") as [amount ->].
  destruct (Hnum "squareFootage") as [area ->].
  destruct (toStr_primitive _ (Hflat "propertyType")) as [kind ->].
  destruct (toStr_primitive _ (Hflat "city")) as [town' ->].
  unfold throwsOn in Hthrow.
  destruct (truthy (get r "id")), (truthy (get r "propertyType")),
    (truthy (get r "price")), (truthy (get r "squareFootage"));
    cbn [mbind option_bind];
    try (eexists; reflexivity);
    (destruct (truthy (get r "addressLine1")); [|eexists; reflexivity]);
    (destruct (get r "addressLine1"); try discriminate Hthrow);
    eexists; reflexivity.
Qed.

(** What [c.build?.k || c.k || d] gives on a flat record can be printed. *)
Lemma toStr_buildOr (c : RawRecord) (k d : string) :
  flat c -> is_Some (toStr (buildOr c k d)).
Proof.
  intros Hflat. unfold buildOr, logicalOr at 1.
  destruct (truthy (optMember (get c "build") k)) eqn:Hb.
  - pose proof (Hflat "build") as Hp. unfold optMember in *.
    destruct (get c "build"); try discriminate.
    destruct (k =? "trim"); [eexists; reflexivity | discriminate].
  - apply toStr_primitive, primitive_logicalOr, Hflat.
Qed.

Lemma bulleted_buildOr (c : RawRecord) (k d : string) :
  flat c -> is_Some (bulleted (buildOr c k d)).
Proof.
  intros Hflat. unfold bulleted.
  destruct (toStr_buildOr c k d Hflat) as [s ->].
  destruct (truthy _); eexists; reflexivity.
Qed.

(** On a flat record the vehicle callback does not throw. *)
Lemma transformCar_flat (rnd : Z) (c : RawRecord) (i : nat) :
  flat c -> is_Some (transformCar rnd c i).
Proof.
  intros Hflat. unfold transformCar.
  destruct (localeNumber_primitive _ (Hflat "price")) as [amount ->].
  destruct (localeNumber_primitive _ (Hflat "miles")) as [distance ->].
  destruct (toStr_buildOr c "year" "N/A" Hflat) as [yearText ->].
  destruct (toStr_buildOr c "make" "Unknown" Hflat) as [makeText ->].
  destruct (toStr_buildOr c "model" "Model" Hflat) as [modelText ->].
  destruct (toStr_buildOr c "body_type" "" Hflat) as [bodyText ->].
  destruct (bulleted_buildOr c "transmission" "" Hflat) as [t ->].
  destruct (bulleted_buildOr c "trim" "" Hflat) as [t' ->].
  destruct (truthy (get c "price")), (truthy (get c "miles"));
    eexists; reflexivity.
Qed.

(** C3 (as amended).  For every raw record.  Every listing the property
    normalizer returns has as its price [$] followed by the formatted
    number when the upstream price is truthy and the sentinel [N/A]
    otherwise, never the empty string.  Every listing the vehicle
    normalizer returns has [$] followed by the formatted number when the
    upstream price is truthy and the empty string otherwise.  The price of
    the injected demo vehicle is the empty string.  A normalizer returns
    no listing when it throws, as the property normalizer does on a record
    with a truthy property type and a truthy address line that is not a
    string; on a record whose members are all primitives the vehicle
    normalizer returns a listing, and so does the property normalizer
    unless the record is of that kind. *)
Theorem normalized_prices (f : Filters) (rnd : Z) (r : RawRecord) (i : nat) :
  (forall p, transformProperty f rnd r i = Some p ->
     (truthy (get r "price") = true ->
      exists n, toNumber (get r "price") = Some n
                /\ PropertyListing.price p = "$" +:+ num_toLocaleString n)
     /\ (truthy (get r "price") = false -> PropertyListing.price p = "N/A")
     /\ PropertyListing.price p <> "")
  /\ (forall c, transformCar rnd r i = Some c ->
        (truthy (get r "price") = true ->
         exists n, toNumber (get r "price") = Some n
                   /\ CarListing.price c = "$" +:+ num_toLocaleString n)
        /\ (truthy (get r "price") = false -> CarListing.price c = "")
        /\ (CarListing.price c = "" <-> truthy (get r "price") = false))
  /\ CarListing.price demoCar = ""
  /\ (throwsOn r = true -> transformProperty f rnd r i = None)
  /\ (flat r ->
      is_Some (transformCar rnd r i)
      /\ (throwsOn r = false -> is_Some (transformProperty f rnd r i))).
Proof.
  split; [|split; [|split; [|split]]].
  - intros p Hp.
    destruct (transformProperty_price f rnd r i p Hp) as [Hyes Hno].
    split; [exact Hyes|]. split; [exact Hno|].
    destruct (truthy (get r "price")).
    + destruct (Hyes eq_refl) as (n & _ & ->). apply dollar_nonempty.
    + rewrite (Hno eq_refl). discriminate.
  - intros c Hc.
    destruct (transformCar_price rnd r i c Hc) as [Hyes Hno].
    split; [exact Hyes|]. split; [exact Hno|].
    destruct (truthy (get r "price")).
    + destruct (Hyes eq_refl) as (n & _ & ->).
      split; [intros H; discriminate H | discriminate].
    + rewrite (Hno eq_refl). split; reflexivity.
  - reflexivity.
  - apply transformProperty_throwsOn.
  - intros Hflat. split; [apply transformCar_flat, Hflat|].
    apply transformProperty_flat, Hflat.
Qed.

(** The page after each kind of change: a change of the listing kind or
    of either filter object leaves it at 1; a change of the query leaves
    it where it was. *)
Lemma page_after_change (w : World) :
  (forall k, k <> activeType (ui w) ->
             currentPage (ui (step w (SetActiveType k))) = 1%Z)
  /\ (forall upd, currentPage (ui (step w (SetFilters upd))) = 1%Z)
  /\ (forall upd, currentPage (ui (step w (SetCarFilters upd))) = 1%Z)
  /\ (forall q, currentPage (ui (step w (SetQuery q))) = currentPage (ui w)).
Proof.
  repeat apply conj; try reflexivity.
  intros k Hk. cbn [step].
  destruct k, (activeType (ui w)); cbn; congruence.
Qed.

End NormalizerProperties.

Section ChatExamples.
Import Js Chat PlainHost Examples.

(** C5 (counterexample).  The record [{ make: "" }] exposes a [make] field
    and is laid out as a property. *)
Lemma isCar_empty_make_is_property :
  let item : RawRecord := {[ "make" := JStr "" ]} in
  Spec.exposes item "make" /\ layout item = PropertyLayout.
Proof.
  split.
  - exists (JStr ""). reflexivity.
  - vm_compute. reflexivity.
Qed.

(** C6 at the quick prompt, with five listings in the response. *)
Lemma handleSend_five_listings_keep_three :
  let data := {| reply := None; data_listings := Some fiveListings |} in
  let st1 := (handleSend 1000 typedPrompt).1 in
  let st2 := (handleSend_settled 2000 (Replied data) st1).1 in
  trim (input typedPrompt) <> ""
  /\ messages st2 =
       [ greeting;
         {| id := "1000"; role := user; listings := None;
            content := "Find luxury apartments in downtown areas" |};
         {| id := "2001"; role := assistant;
            listings := Some (take 3 fiveListings); content := "" |} ]
  /\ length (take 3 fiveListings) = 3%nat.
Proof.
  assert (Htrim : trim (input typedPrompt) <> "")
    by (vm_compute; discriminate).
  assert (Hne : fiveListings <> []) by discriminate.
  pose proof (handleSend_keeps_first_three typedPrompt 1000 2000
                {| reply := None; data_listings := Some fiveListings |}
                fiveListings Htrim eq_refl eq_refl Hne) as (_ & H2 & _ & H5).
  split; [exact Htrim|]. split; [exact H2|]. apply H5. reflexivity.
Defined.

(** C10 at a whitespace-only input, and at a typed prompt while a send is
    in flight. *)
Lemma handleSend_blank_input_noop :
  let blank :=
    {| messages := [greeting]; input := "   "; isLoading := false |} in
  let busy :=
    {| messages := [greeting]; input := "Compare SUVs"; isLoading := true |} in
  trim (input blank) = ""
  /\ handleSend 1000 blank = (blank, None)
  /\ handleSend 1000 busy = (busy, None).
Proof.
  split; [reflexivity|]. split.
  - apply handleSend_guard_noop. right. left. reflexivity.
  - apply handleSend_guard_noop. right. right. reflexivity.
Defined.

End ChatExamples.

Section ListingsExamples.
Import Js Listings PlainHost Examples.

(** C1 (counterexample).  The property request rejects and the vehicle
    service would answer with one car: the vehicle request is never sent
    and the vehicle collection is not the normalized response. *)
Lemma property_network_error_blocks_vehicles :
  let w :=
    run mount [TimerFires 0; RentSettles 0 Rejected noise;
               CarSettles 0 hondaResponse noise] in
  carListings (ui w) = []
  /\ Some (carListings (ui w)) <> transformedCars noise [rawHonda]
  /\ sent w = [(0%nat, rentcastRequest initialFilters)].
Proof.
  cbv zeta.
  assert (H : carListings
                (ui (run mount [TimerFires 0; RentSettles 0 Rejected noise;
                                CarSettles 0 hondaResponse noise])) = [])
    by reflexivity.
  split; [exact H|]. split; [rewrite H; discriminate|].
  reflexivity.
Qed.

(** C1 at the first run of the page: the property request rejecting, and
    a condo arriving while the vehicle service answers with a non-2xx
    status. *)
Lemma fetch_cycle_partial_failure_at_mount :
  cycles mount !! 0%nat = Some (newCycle initialFilters initialCarFilters)
  /\ (let w' :=
        run mount [TimerFires 0; RentSettles 0 Rejected noise;
                   CarSettles 0 hondaResponse noise] in
      propertyListings (ui w') = propertyListings (ui mount)
      /\ carListings (ui w') = carListings (ui mount)
      /\ loading (ui w') = false
      /\ sent w' = sent mount ++ [(0%nat, rentcastRequest initialFilters)])
  /\ (exists ps,
        transformedProperties initialFilters noise [rawCondo] = Some ps
        /\ let w' :=
             run mount
               [TimerFires 0;
                RentSettles 0 (Answered true (Some [rawCondo])) noise;
                CarSettles 0 (Answered false None) noise] in
           propertyListings (ui w') = ps
           /\ carListings (ui w') = [demoCar]
           /\ loading (ui w') = false).
Proof.
  pose proof (fetch_cycle_partial_failure mount 0
                (newCycle initialFilters initialCarFilters) noise noise
                eq_refl eq_refl eq_refl) as (_ & Hcar & Hrent & _).
  split; [reflexivity|]. split; [exact (Hrent hondaResponse)|].
  destruct (transformedProperties initialFilters noise [rawCondo])
    as [ps|] eqn:Hps; [|discriminate].
  exists ps. split; [reflexivity|].
  exact (Hcar [rawCondo] ps None Hps).
Defined.

(** C2 at the first run of the page.  The condo of the first run has been
    applied and the run awaits its vehicle request when the bedrooms
    filter changes; the second run gets two non-2xx answers; the vehicle
    answer of the first run arrives last.  What the page holds at the end
    is what the second run wrote. *)
Lemma stale_cycle_writes_nothing_at_mount :
  let w :=
    run mount
      [TimerFires 0; RentSettles 0 (Answered true (Some [rawCondo])) noise] in
  let final :=
    run (step w (SetFilters threeBedrooms))
      [TimerFires 1; RentSettles 1 (Answered false None) noise;
       CarSettles 1 (Answered false None) noise;
       CarSettles 0 hondaResponse noise] in
  phase <$> cycles w !! 0%nat = Some AwaitingCar
  /\ length (propertyListings (ui w)) = 1%nat
  /\ Spec.isFilterChange (SetFilters threeBedrooms)
  /\ propertyListings (ui final) = []
  /\ carListings (ui final) = [demoCar]
  /\ loading (ui final) = false.
Proof.
  cbv zeta.
  split; [reflexivity|]. split; [reflexivity|]. split; [exact I|].
  refine (proj2
            (stale_cycle_writes_nothing
               (run mount
                  [TimerFires 0;
                   RentSettles 0 (Answered true (Some [rawCondo])) noise])
               0
               (setPhase AwaitingCar
                  (setPhase AwaitingRent
                     (newCycle initialFilters initialCarFilters)))
               (SetFilters threeBedrooms) eq_refl eq_refl I)
            (Answered false None) noise (Answered false None) noise
            [] [] [] [CarSettles 0 hondaResponse noise] [] [demoCar]
            eq_refl eq_refl _ _ _ _);
    repeat constructor.
Defined.

(** C3 (counterexample).  A vehicle record without a price is normalized
    to a listing with the empty price, and the demo vehicle has the empty
    price. *)
Lemma vehicle_price_can_be_empty :
  (exists c, transformCar 12 ∅ 0 = Some c /\ CarListing.price c = "")
  /\ CarListing.price demoCar = "".
Proof. split; [eexists; split; reflexivity | reflexivity]. Qed.

(** C3 at a condo with a price, a flat record. *)
Lemma normalized_prices_condo :
  flat rawCondo
  /\ throwsOn rawCondo = false
  /\ truthy (get rawCondo "price") = true
  /\ exists p,
       transformProperty initialFilters 12 rawCondo 0 = Some p
       /\ PropertyListing.price p = "$350,000"
       /\ PropertyListing.price p <> "".
Proof.
  assert (Hflat : flat rawCondo).
  { unfold rawCondo. repeat apply flat_insert; try reflexivity.
    apply flat_empty. }
  pose proof (normalized_prices initialFilters 12 rawCondo 0)
    as (Hprice & _ & _ & _ & Hreturns).
  destruct (proj2 (Hreturns Hflat) eq_refl) as [p Hp].
  destruct (Hprice p Hp) as (Hshown & _ & Hne).
  destruct (Hshown eq_refl) as (n & Hn & Hprice').
  split; [exact Hflat|]. split; [reflexivity|]. split; [reflexivity|].
  exists p. split; [exact Hp|]. split; [|exact Hne].
  rewrite Hprice'. injection Hn as <-. reflexivity.
Defined.

(** C4 (what the code does).  Ten properties are loaded and the user is on
    page 2 of 2.  Typing a query that one listing matches leaves the page
    at 2 while there is one page: the page shown is empty.  A change of
    the listing kind or of a filter object does reset the page. *)
Theorem query_change_keeps_stale_page :
  let w :=
    run mount
      [TimerFires 0; RentSettles 0 (Answered true (Some tenProperties)) noise;
       CarSettles 0 (Answered false None) noise; HandlePageChange 2] in
  let w' := step w (SetQuery "condo") in
  (currentPage (ui w) = 2%Z /\ totalPages (ui w) = 2%Z
   /\ length (paginatedListings (ui w)) = 1%nat)
  /\ (currentPage (ui w') = 2%Z /\ totalPages (ui w') = 1%Z
      /\ length (filteredListings (ui w')) = 1%nat
      /\ paginatedListings (ui w') = [])
  /\ currentPage (ui (step w (SetActiveType car))) = 1%Z
  /\ currentPage (ui (step w (SetFilters threeBedrooms))) = 1%Z
  /\ (forall (h : Host) (e : Env) (v : World) (q : string),
        currentPage (ui (step v (SetQuery q))) = currentPage (ui v)).
Proof.
  cbv zeta. repeat apply conj; try (vm_compute; reflexivity).
Qed.

(** C8 at two property listings, with the query [PLANO] and with a blank
    query. *)
Lemma filterListings_correct_plano :
  trim "PLANO" <> ""
  /\ filterListings property "PLANO" twoListings =
       filter (Spec.queryOccurs property "PLANO") twoListings
  /\ filterListings property "PLANO" twoListings = drop 1 twoListings
  /\ trim "  " = ""
  /\ filterListings property "  " twoListings = twoListings.
Proof.
  assert (Hq : trim "PLANO" <> "") by (vm_compute; discriminate).
  pose proof (filterListings_correct property "PLANO" twoListings)
    as (_ & Hfilter & _).
  pose proof (filterListings_correct property "  " twoListings)
    as (Hblank & _).
  split; [exact Hq|]. split; [exact (Hfilter Hq)|].
  split; [vm_compute; reflexivity|]. split; [reflexivity|].
  apply Hblank. right. reflexivity.
Defined.

End ListingsExamples.

(** ** More of the chat page *)

Section ChatMachine.
Import Js Chat.
Context `{host : Host}.

Lemma handleSend_cases (now : Z) (st : State) :
  (sendDisabled st = true /\ handleSend now st = (st, None))
  \/ (sendDisabled st = false
      /\ handleSend now st =
           ({| messages :=
                 messages st ++
                 [{| id := pretty now; role := user; listings := None;
                     content := input st |}];
               input := "";
               isLoading := true |},
            Some {| url := "http://127.0.0.1:5000/api/chat";
                    method := "POST";
                    query := input st |})).
Proof.
  unfold handleSend, sendDisabled.
  destruct ((trim (input st) =? "") || isLoading st); [left|right]; auto.
Qed.

Lemma settled_cases (now : Z) (o : Settled) (st : State) :
  exists msgs toast,
    handleSend_settled now o st =
      ({| messages := messages st ++ msgs; input := input st;
          isLoading := false |}, toast)
    /\ ((o = Failed /\ msgs = [] /\ toast <> None)
        \/ (exists data m, o = Replied data /\ msgs = [m] /\ toast = None
            /\ role m = assistant /\ id m = pretty (now + 1)%Z
            /\ match listings m with
               | Some l => l <> [] /\ length l <= 3 /\ content m = ""
               | None => content m = replyOr (reply data) fallbackText
               end)).
Proof.
  destruct o as [|data]; cbn [handleSend_settled].
  - exists [], (Some {| title := "Error";
                        description := "Failed to connect to the AI backend.";
                        variant := "destructive" |}).
    rewrite app_nil_r. split; [reflexivity|]. left. repeat split. discriminate.
  - destruct (hasListings data) eqn:Hh; eexists [_], None;
      (split; [reflexivity|]); right; exists data; eexists;
      repeat (split; [reflexivity|]); cbn [listings content].
    + unfold hasListings in Hh.
      destruct (data_listings data) as [l|]; [|discriminate].
      cbn [default from_option Datatypes.id].
      rewrite (slice_front l 3 : slice l 0 3 = take 3 l).
      apply Z.ltb_lt in Hh. destruct l as [|x l]; [cbn in Hh; lia|].
      split; [discriminate|]. split; [|reflexivity].
      rewrite length_take. lia.
    + reflexivity.
Qed.

Lemma keyPress_as_send (e : KeyboardEvent) (now : Z) (w : World) :
  step w (KeyPress e now) =
  if (key e =? "Enter") && negb (shiftKey e) then step w (ClickSend now)
  else w.
Proof.
  cbn [step]. unfold handleKeyPress, send.
  destruct ((key e =? "Enter") && negb (shiftKey e)).
  - destruct (handleSend_cases now (page w)) as [[Hd Hs]|[Hd Hs]];
      rewrite Hd, Hs.
    + destruct (isLoading (page w)); [reflexivity|].
      cbn [option_list]. rewrite app_nil_r. destruct w; reflexivity.
    + unfold sendDisabled in Hd. apply orb_false_iff in Hd as [_ ->].
      reflexivity.
  - destruct (isLoading (page w)); [reflexivity|].
    cbn [option_list]. rewrite app_nil_r. destruct w; reflexivity.
Qed.

(** X1.  Enter without Shift does, in every state, what a click on the send
    button does; any other key press leaves the page as it is. *)
Theorem enter_key_is_send_click (w : World) (e : KeyboardEvent) (now : Z) :
  (key e = "Enter" -> shiftKey e = false ->
   step w (KeyPress e now) = step w (ClickSend now))
  /\ (key e <> "Enter" \/ shiftKey e = true ->
      step w (KeyPress e now) = w).
Proof.
  rewrite keyPress_as_send. split.
  - intros -> ->. reflexivity.
  - intros [Hk|Hs].
    + apply String.eqb_neq in Hk. rewrite Hk. reflexivity.
    + rewrite Hs, andb_false_r. reflexivity.
Qed.

(** What one event does to the transcript: nothing, or one message at the
    end. *)
Lemma step_appends (w : World) (e : Event) :
  exists msgs, messages (page (step w e)) = messages (page w) ++ msgs
               /\ (length msgs <= 1)%nat.
Proof.
  assert (Hsame : exists msgs,
             messages (page w) = messages (page w) ++ msgs
             /\ (length msgs <= 1)%nat).
  { exists []. rewrite app_nil_r. split; [reflexivity|cbn; lia]. }
  assert (Hsend : forall now, exists msgs,
             messages (page (send now w)) = messages (page w) ++ msgs
             /\ (length msgs <= 1)%nat).
  { intros now. unfold send.
    destruct (handleSend_cases now (page w)) as [[_ ->]|[_ ->]];
      [exact Hsame|]. eexists [_]. split; [reflexivity|cbn; lia]. }
  destruct e as [v|i|now|k now|now o].
  - cbn [step]. destruct (isLoading (page w)); [exact Hsame|].
    exists []. cbn. rewrite app_nil_r. auto with lia.
  - cbn [step]. destruct (quickPromptsShown (page w)); [|exact Hsame].
    destruct (quickPrompts !! i); [|exact Hsame].
    exists []. cbn. rewrite app_nil_r. auto with lia.
  - cbn [step]. destruct (sendDisabled (page w)); [exact Hsame|apply Hsend].
  - rewrite keyPress_as_send.
    destruct ((key k =? "Enter") && negb (shiftKey k)); [|exact Hsame].
    cbn [step]. destruct (sendDisabled (page w)); [exact Hsame|apply Hsend].
  - cbn [step]. destruct (inFlight w) as [|r rest]; [exact Hsame|].
    destruct (settled_cases now o (page w)) as (msgs & toast & -> & Hc).
    exists msgs. split; [reflexivity|].
    destruct Hc as [(_ & -> & _)|(data & m & _ & -> & _)]; cbn; lia.
Qed.

Lemma run_extends (w : World) (events : list Event) :
  exists added,
    messages (page (run w events)) = messages (page w) ++ added.
Proof.
  revert w. induction events as [|e events IH]; intros w.
  - exists []. rewrite app_nil_r. reflexivity.
  - destruct (step_appends w e) as (msgs & Hm & _).
    destruct (IH (step w e)) as [added Ha].
    exists (msgs ++ added). unfold run in *. cbn [foldl].
    rewrite Ha, Hm, app_assoc. reflexivity.
Qed.

(** X2.  The transcript is append-only: whatever happens, the messages there
    were stay, unchanged and in order, at the front. *)
Theorem transcript_append_only (w : World) (events : list Event) :
  messages (page w) `prefix_of` messages (page (run w events)).
Proof.
  revert w. induction events as [|e events IH]; intros w; [reflexivity|].
  unfold run in *. cbn [foldl].
  destruct (step_appends w e) as (msgs & Hm & _).
  etransitivity; [|apply IH]. rewrite Hm. apply prefix_app_r. reflexivity.
Qed.

Lemma answers_snoc (previous : Role) (msgs : list Message) (m : Message) :
  answersFollowQuestions previous (msgs ++ [m]) =
  answersFollowQuestions previous msgs
  && match lastRole previous msgs, role m with
     | assistant, assistant => false
     | _, _ => true
     end.
Proof.
  unfold lastRole. revert previous.
  induction msgs as [|x msgs IH]; intros previous.
  - cbn. destruct previous, (role m); reflexivity.
  - cbn [app answersFollowQuestions].
    assert (Hlast : default previous (role <$> last (x :: msgs)) =
                    default (role x) (role <$> last msgs)).
    { destruct msgs as [|y msgs]; [reflexivity|].
      rewrite last_cons_cons.
      destruct (last (y :: msgs)) eqn:Hl; [reflexivity|].
      apply last_None in Hl. discriminate. }
    rewrite Hlast.
    destruct previous, (role x); try apply IH. reflexivity.
Qed.

Lemma send_keeps (now : Z) (w : World) :
  settledOrWaiting w -> sendDisabled (page w) = false ->
  settledOrWaiting (send now w).
Proof.
  intros [Hafq Hst] Hd. unfold send.
  destruct (handleSend_cases now (page w)) as [[Hd' _]|[_ ->]];
    [congruence|].
  unfold sendDisabled in Hd. apply orb_false_iff in Hd as [_ Hload].
  destruct Hst as [[_ Hin]|[Hl _]]; [|congruence].
  split; cbn [page messages isLoading inFlight].
  - rewrite answers_snoc, Hafq. cbn.
    destruct (lastRole user (messages (page w))); reflexivity.
  - right. split; [reflexivity|]. eexists. rewrite last_snoc.
    split; [reflexivity|]. split; [reflexivity|].
    rewrite Hin. reflexivity.
Qed.

Lemma step_keeps (w : World) (e : Event) :
  settledOrWaiting w -> settledOrWaiting (step w e).
Proof.
  intros Hw. pose proof Hw as [Hafq Hst].
  destruct e as [v|i|now|k now|now o].
  - cbn [step]. destruct (isLoading (page w)) eqn:Hl; [exact Hw|].
    split; [exact Hafq|]. left. cbn.
    destruct Hst as [[_ Hin]|[Hl' _]]; [auto|congruence].
  - cbn [step]. destruct (quickPromptsShown (page w)); [|exact Hw].
    destruct (quickPrompts !! i); [|exact Hw].
    split; [exact Hafq|]. exact Hst.
  - cbn [step]. destruct (sendDisabled (page w)) eqn:Hd; [exact Hw|].
    apply send_keeps; assumption.
  - rewrite keyPress_as_send.
    destruct ((key k =? "Enter") && negb (shiftKey k)); [|exact Hw].
    cbn [step]. destruct (sendDisabled (page w)) eqn:Hd; [exact Hw|].
    apply send_keeps; assumption.
  - cbn [step]. destruct (inFlight w) as [|r rest] eqn:Hin; [exact Hw|].
    destruct Hst as [[_ Hnil]|(Hl & m & Hlast & Hrole & Hone)];
      [congruence|].
    assert (rest = []) as -> by congruence.
    destruct (settled_cases now o (page w)) as (msgs & toast & -> & Hc).
    split; cbn [page messages isLoading inFlight]; [|left; auto].
    destruct Hc as [(_ & -> & _)|(data & a & _ & -> & _)].
    + rewrite app_nil_r. exact Hafq.
    + rewrite answers_snoc, Hafq. unfold lastRole.
      rewrite Hlast. cbn. rewrite Hrole. reflexivity.
Qed.

Lemma run_keeps (w : World) (events : list Event) :
  settledOrWaiting w -> settledOrWaiting (run w events).
Proof.
  revert w. induction events as [|e events IH]; intros w Hw; [exact Hw|].
  apply IH, step_keeps, Hw.
Qed.

Lemma start_settled : settledOrWaiting start.
Proof. split; [reflexivity|]. left. split; reflexivity. Qed.

(** X3.  At every moment at most one request is awaited, one is awaited
    exactly while the loading flag is set, and it carries the text of the
    last message of the transcript, which is the user's. *)
Theorem one_request_in_flight (events : list Event) :
  let w := run start events in
  (length (inFlight w) <= 1)%nat
  /\ (isLoading (page w) = true <-> inFlight w <> [])
  /\ (forall r, r ∈ inFlight w ->
        exists m, last (messages (page w)) = Some m
                  /\ role m = user /\ content m = query r).
Proof.
  intros w. destruct (run_keeps start events start_settled) as [_ Hst].
  fold w in Hst.
  destruct Hst as [[Hl Hin]|(Hl & m & Hlast & Hrole & Hin)];
    rewrite Hl, Hin.
  - split; [cbn; lia|]. split; [split; [discriminate|congruence]|].
    intros r Hr. apply elem_of_nil in Hr. contradiction.
  - split; [cbn; lia|]. split; [split; [discriminate|reflexivity]|].
    intros r Hr. apply list_elem_of_singleton in Hr as ->.
    exists m. auto.
Qed.

(** X4.  No two assistant messages ever stand in a row: after the greeting,
    each assistant message answers the user message before it. *)
Theorem answers_follow_questions (events : list Event) :
  answersFollowQuestions user (messages (page (run start events))) = true.
Proof. apply (run_keeps start events start_settled). Qed.

End ChatMachine.

Section ChatTurns.
Import Js Chat.
Context `{host : Host}.

Lemma step_wellFormed (w : World) (e : Event) :
  Forall wellFormedMessage (messages (page w)) ->
  Forall wellFormedMessage (messages (page (step w e))).
Proof.
  intros Hw.
  assert (Hsend : forall now,
             Forall wellFormedMessage (messages (page (send now w)))).
  { intros now. unfold send.
    destruct (handleSend_cases now (page w)) as [[_ ->]|[_ ->]];
      [exact Hw|].
    cbn [page messages]. apply Forall_app. split; [exact Hw|].
    repeat constructor. }
  destruct e as [v|i|now|k now|now o].
  - cbn [step]. destruct (isLoading (page w)); exact Hw.
  - cbn [step]. destruct (quickPromptsShown (page w)); [|exact Hw].
    destruct (quickPrompts !! i); exact Hw.
  - cbn [step]. destruct (sendDisabled (page w)); [exact Hw|apply Hsend].
  - rewrite keyPress_as_send.
    destruct ((key k =? "Enter") && negb (shiftKey k)); [|exact Hw].
    cbn [step]. destruct (sendDisabled (page w)); [exact Hw|apply Hsend].
  - cbn [step]. destruct (inFlight w) as [|r rest]; [exact Hw|].
    destruct (settled_cases now o (page w)) as (msgs & toast & -> & Hc).
    cbn [page messages]. apply Forall_app. split; [exact Hw|].
    destruct Hc as [(_ & -> & _)|(data & m & _ & -> & _ & Hrole & _ & Hl)];
      [constructor|].
    repeat constructor. unfold wellFormedMessage.
    destruct (listings m); [|exact I]. tauto.
Qed.

(** X5.  In every transcript the page can reach, a message that carries
    listings carries between one and three of them, is the assistant's and
    has empty text. *)
Theorem listings_capped_everywhere (events : list Event) (m : Message)
    (l : list RawRecord) :
  m ∈ messages (page (run start events)) ->
  listings m = Some l ->
  (1 <= length l <= 3)%nat /\ role m = assistant /\ content m = "".
Proof.
  assert (Hall : forall w,
             Forall wellFormedMessage (messages (page w)) ->
             Forall wellFormedMessage (messages (page (run w events)))).
  { induction events as [|e events IH]; intros w Hw; [exact Hw|].
    apply IH, step_wellFormed, Hw. }
  intros Hm Hl.
  assert (Hstart : Forall wellFormedMessage (messages (page start)))
    by (repeat constructor).
  pose proof (proj1 (Forall_forall _ _) (Hall start Hstart) m Hm) as H.
  unfold wellFormedMessage in H. rewrite Hl in H.
  destruct H as (Hne & Hlen & Hc & Hr).
  destruct l; [congruence|]. cbn [length] in *. repeat split; auto; lia.
Qed.

(** X6.  The send button is disabled exactly in the states in which
    [handleSend] would do nothing. *)
Theorem send_button_agrees_with_guard (st : State) (now : Z) :
  sendDisabled st = true <-> handleSend now st = (st, None).
Proof.
  destruct (handleSend_cases now st) as [[Hd Hs]|[Hd Hs]]; rewrite Hd, Hs.
  - split; reflexivity.
  - split; [discriminate|]. intros H. injection H as _ H. discriminate.
Qed.

(** X7.  A whole turn.  From a state in which the button is enabled, the
    send clears the input, sets the loading flag and issues one request
    with the text typed; when the request settles the loading flag is
    cleared and the input is left alone.  A failure adds no message and
    shows a toast; a reply adds exactly one assistant message and shows
    none, and its id differs from the id of the user message when the
    clock has not gone backwards. *)
Theorem turn_outcome (st : State) (t1 t2 : Z) (o : Settled) :
  sendDisabled st = false ->
  let userMessage :=
    {| id := pretty t1; role := user; listings := None;
       content := input st |} in
  let '(st1, request) := handleSend t1 st in
  let '(st2, toast) := handleSend_settled t2 o st1 in
  (exists r, request = Some r /\ query r = input st)
  /\ input st1 = "" /\ isLoading st1 = true
  /\ input st2 = "" /\ isLoading st2 = false
  /\ (o = Failed ->
      messages st2 = messages st ++ [userMessage] /\ toast <> None)
  /\ (forall data, o = Replied data ->
      exists answer,
        messages st2 = messages st ++ [userMessage; answer]
        /\ role answer = assistant
        /\ toast = None
        /\ ((t1 <= t2)%Z -> id answer <> id userMessage)).
Proof.
  intros Hd userMessage.
  destruct (handleSend_cases t1 st) as [[Hd' _]|[_ ->]]; [congruence|].
  match goal with |- context [handleSend_settled t2 o ?s] =>
    destruct (settled_cases t2 o s) as (msgs & toast & -> & Hc)
  end.
  cbn [messages input isLoading].
  split; [eexists; split; reflexivity|].
  repeat (split; [reflexivity|]).
  destruct Hc as [(-> & -> & Ht)|(data & m & -> & -> & -> & Hr & Hid & _)].
  - split; [intros _; rewrite app_nil_r; auto | discriminate].
  - split; [discriminate|]. intros data' _. exists m.
    rewrite <- app_assoc. repeat (split; [reflexivity || exact Hr|]).
    intros Hle. rewrite Hid. cbn [id userMessage].
    intros Heq. apply (inj pretty) in Heq. lia.
Qed.

Lemma append_space (a b : string) : a +:+ " " +:+ b <> "".
Proof. destruct a; discriminate. Qed.

(** X8.  The heading of a card is the address when it is truthy, else the
    title when it is truthy, else the text of the year, a space and the
    text of the make, in this order, a falsy year or make being printed
    as the empty text.  The expression throws exactly when neither the
    address nor the title is truthy and the year or the make cannot be
    printed.  Every heading it gives is truthy; for a record with none of
    the four members it is a single space. *)
Theorem cardTitle_priority (item : RawRecord) :
  let year := logicalOr (get item "year") (JStr "") in
  let make := logicalOr (get item "make") (JStr "") in
  (truthy (get item "address") = true ->
   cardTitle item = Some (get item "address"))
  /\ (truthy (get item "address") = false ->
      truthy (get item "title") = true ->
      cardTitle item = Some (get item "title"))
  /\ (truthy (get item "address") = false ->
      truthy (get item "title") = false ->
      forall y m, toStr year = Some y -> toStr make = Some m ->
        cardTitle item = Some (JStr (y +:+ " " +:+ m)))
  /\ (cardTitle item = None <->
      truthy (get item "address") = false
      /\ truthy (get item "title") = false
      /\ (toStr year = None \/ toStr make = None))
  /\ (forall heading, cardTitle item = Some heading -> truthy heading = true)
  /\ (truthy (get item "address") = false ->
      truthy (get item "title") = false ->
      truthy (get item "year") = false ->
      truthy (get item "make") = false ->
      cardTitle item = Some (JStr " ")).
Proof.
  intros year make. unfold cardTitle, logicalOrElse. fold year make.
  destruct (truthy (get item "address")) eqn:Ha.
  { split; [reflexivity|]. split; [discriminate|]. split; [discriminate|].
    split; [split; [discriminate | intros (H & _); discriminate H]|].
    split; [intros heading [= <-]; exact Ha | discriminate]. }
  destruct (truthy (get item "title")) eqn:Ht.
  { split; [discriminate|]. split; [reflexivity|]. split; [discriminate|].
    split; [split; [discriminate | intros (_ & H & _); discriminate H]|].
    split; [intros heading [= <-]; exact Ht | discriminate]. }
  split; [discriminate|]. split; [discriminate|]. split.
  { intros _ _ y m -> ->. reflexivity. }
  split; [|split].
  - destruct (toStr year) as [y|]; cbn [mbind option_bind].
    + destruct (toStr make) as [m|]; cbn [mbind option_bind].
      * split; [discriminate|]. intros (_ & _ & [H|H]); discriminate H.
      * split; auto.
    + split; auto.
  - intros heading H.
    destruct (toStr year) as [y|]; [|discriminate H].
    destruct (toStr make) as [m|]; [|discriminate H].
    cbn [mbind option_bind] in H. injection H as <-. cbn [truthy].
    apply negb_true_iff, String.eqb_neq, append_space.
  - intros _ _ Hy Hm. subst year make. unfold logicalOr.
    rewrite Hy, Hm. reflexivity.
Qed.

(** X9.  The quick prompts are there exactly until the first message is
    sent, and never come back. *)
Theorem quick_prompts_until_first_send (events later : list Event) :
  let w := run start events in
  (quickPromptsShown (page w) = true <-> messages (page w) = [greeting])
  /\ (quickPromptsShown (page w) = false ->
      quickPromptsShown (page (run w later)) = false).
Proof.
  intros w.
  destruct (run_extends start events) as [added Hadd].
  fold w in Hadd. cbn in Hadd.
  destruct (run_extends w later) as [more Hmore].
  unfold quickPromptsShown. rewrite Hmore, Hadd. cbn [app length].
  split.
  - rewrite Nat.eqb_eq. destruct added; cbn [length]; split;
      (reflexivity || discriminate || lia).
  - rewrite !Nat.eqb_neq, !length_app. cbn [length]. lia.
Qed.

End ChatTurns.

(** ** More of the listings page *)

Section PagerProperties.
Import Js Listings.
Context `{host : Host} `{env : Env}.

Lemma relIndex_bounds (len k : Z) :
  (0 <= len -> 0 <= relIndex len k <= len)%Z.
Proof.
  intros Hlen. unfold relIndex.
  destruct (Z.ltb_spec k 0); lia.
Qed.

(** A window that starts at or after the front of the array. *)
Lemma slice_window {A} (l : list A) (a k : nat) :
  slice l (Z.of_nat a) (Z.of_nat a + Z.of_nat k) = take k (drop a l).
Proof.
  unfold slice, relIndex.
  destruct (Z.ltb_spec (Z.of_nat a) 0) as [?|_]; [lia|].
  destruct (Z.ltb_spec (Z.of_nat a + Z.of_nat k) 0) as [?|_]; [lia|].
  destruct (le_lt_dec a (length l)) as [Hle|Hgt].
  - rewrite (Z.min_l (Z.of_nat a)) by lia. rewrite Nat2Z.id.
    destruct (le_lt_dec (a + k) (length l)) as [Hle2|Hgt2].
    + rewrite Z.min_l by lia. f_equal. lia.
    + rewrite Z.min_r by lia.
      replace (Z.to_nat (Z.of_nat (length l) - Z.of_nat a))
        with (length l - a)%nat by lia.
      rewrite !take_ge; [reflexivity| |]; rewrite length_drop; lia.
  - rewrite (Z.min_r (Z.of_nat a)) by lia. rewrite Nat2Z.id.
    rewrite !drop_ge by lia. rewrite !take_nil. reflexivity.
Qed.

Lemma slice_length {A} (l : list A) (a k : Z) :
  (0 <= k -> Z.of_nat (length (slice l a (a + k))) <= k)%Z.
Proof.
  intros Hk. unfold slice. rewrite length_take, length_drop.
  assert (relIndex (Z.of_nat (length l)) (a + k)
          - relIndex (Z.of_nat (length l)) a <= k)%Z; [|lia].
  unfold relIndex.
  destruct (Z.ltb_spec a 0), (Z.ltb_spec (a + k) 0); lia.
Qed.

Lemma totalPages_eq (st : State) :
  let n := Z.of_nat (length (filteredListings st)) in
  (1 <= totalPages st
   /\ 9 * (totalPages st - 1) <= n
   /\ (n = 0 \/ 9 * (totalPages st - 1) < n)
   /\ n <= 9 * totalPages st)%Z.
Proof.
  intros n. unfold totalPages, ITEMS_PER_PAGE. fold n.
  assert (Hn : (0 <= n)%Z) by (subst n; lia).
  pose proof (Z.div_mod (n + 9 - 1) 9 ltac:(lia)) as Hdm.
  pose proof (Z.mod_pos_bound (n + 9 - 1) 9 ltac:(lia)) as Hmod.
  destruct (Z.eqb_spec ((n + 9 - 1) / 9) 0) as [H0|Hne]; lia.
Qed.

(** The page shown, when the page number is positive. *)
Lemma page_window (st : State) (p : nat) :
  paginatedListings (setCurrentPage (Z.of_nat (S p)) st) =
  take 9 (drop (9 * p) (filteredListings st)).
Proof.
  unfold paginatedListings, startIndex, ITEMS_PER_PAGE.
  change (filteredListings (setCurrentPage (Z.of_nat (S p)) st))
    with (filteredListings st).
  cbn [currentPage setCurrentPage].
  replace ((Z.of_nat (S p) - 1) * 9)%Z with (Z.of_nat (9 * p)) by lia.
  apply (slice_window _ (9 * p) 9).
Qed.

(** X10.  There is always at least one page, and a page never shows more
    than nine listings, whatever the page number. *)
Theorem page_size_bounded (st : State) :
  (1 <= totalPages st)%Z /\ (length (paginatedListings st) <= 9)%nat.
Proof.
  split; [apply totalPages_eq|].
  unfold paginatedListings, ITEMS_PER_PAGE.
  pose proof (slice_length (filteredListings st) (startIndex st) 9).
  lia.
Qed.

Lemma chunks_concat {A} (l : list A) (m : nat) :
  (length l <= 9 * m)%nat ->
  concat ((fun p => take 9 (drop (9 * p) l)) <$> seq 0 m) = l.
Proof.
  revert l. induction m as [|m IH]; intros l Hlen.
  - destruct l; [reflexivity|cbn in Hlen; lia].
  - cbn [seq]. rewrite fmap_cons. cbn [concat].
    rewrite <- fmap_S_seq, <- list_fmap_compose.
    transitivity (take 9 l ++ drop 9 l); [|apply take_drop].
    change (drop (9 * 0) l) with l. f_equal.
    transitivity
      (concat ((fun p => take 9 (drop (9 * p) (drop 9 l))) <$> seq 0 m));
      [|apply IH; rewrite length_drop; lia].
    f_equal. apply list_fmap_ext. intros _ p _. cbn [compose].
    rewrite drop_drop. do 2 f_equal. lia.
Qed.

(** X11.  The pages the pager offers cut the filtered list into consecutive
    pieces: put one after the other, pages 1 to [totalPages] give the
    filtered list back, each listing once and in order. *)
Theorem pages_partition_filtered (st : State) :
  concat ((fun page => paginatedListings (setCurrentPage page st))
            <$> pageButtons st)
  = filteredListings st.
Proof.
  unfold pageButtons. rewrite <- list_fmap_compose.
  rewrite <- (chunks_concat (filteredListings st)
                (Z.to_nat (totalPages st))).
  - f_equal. apply list_fmap_ext. intros _ p _. cbn.
    replace (Z.of_nat p + 1)%Z with (Z.of_nat (S p)) by lia.
    apply page_window.
  - pose proof (totalPages_eq st) as H. cbv zeta in H. lia.
Qed.

(** X12.  A page from 1 on is empty exactly when nothing passes the filter
    or the page number is beyond [totalPages]; every page before the last
    shows nine listings. *)
Theorem page_empty_iff (st : State) :
  (1 <= currentPage st)%Z ->
  (paginatedListings st = [] <->
   filteredListings st = [] \/ (totalPages st < currentPage st)%Z)
  /\ ((currentPage st < totalPages st)%Z ->
      length (paginatedListings st) = 9%nat).
Proof.
  intros Hp.
  assert (Hst : st = setCurrentPage
                       (Z.of_nat (S (Z.to_nat (currentPage st - 1)))) st).
  { destruct st. unfold setCurrentPage. cbn in *. f_equal. lia. }
  pose proof (totalPages_eq st) as Ht. cbv zeta in Ht.
  set (p := Z.to_nat (currentPage st - 1)) in *.
  assert (Hcur : currentPage st = Z.of_nat (S p)) by (subst p; lia).
  rewrite Hst, page_window. rewrite <- Hst. rewrite Hcur.
  set (l := filteredListings st) in *. split.
  - rewrite <- length_zero_iff_nil, length_take, length_drop.
    rewrite <- (length_zero_iff_nil l). lia.
  - intros Hlt. rewrite length_take, length_drop. lia.
Qed.

(** X13.  A click on an enabled button of the pager takes a page number
    within 1..[totalPages] to one within it, and leaves the number of
    pages as it is. *)
Theorem pager_keeps_page_in_range (w : World) (b : PagerButton)
    (e : Event) :
  (1 <= currentPage (ui w) <= totalPages (ui w))%Z ->
  pagerClick b (ui w) = Some e ->
  let w' := step w e in
  totalPages (ui w') = totalPages (ui w)
  /\ (1 <= currentPage (ui w') <= totalPages (ui w'))%Z
  /\ (b = Previous -> currentPage (ui w') = currentPage (ui w) - 1)%Z
  /\ (b = Next -> currentPage (ui w') = currentPage (ui w) + 1)%Z
  /\ (forall page, b = PageNumber page -> currentPage (ui w') = page).
Proof.
  intros Hrange Hclick w'. unfold pagerClick in Hclick.
  destruct (pagerShown (ui w)); [|discriminate].
  assert (Hpages : forall page,
             totalPages (setCurrentPage page (ui w)) = totalPages (ui w))
    by reflexivity.
  destruct b as [| |page].
  - unfold previousDisabled in Hclick.
    destruct (Z.eqb_spec (currentPage (ui w)) 1); [discriminate|].
    injection Hclick as <-. subst w'. cbn [step ui].
    rewrite Hpages. cbn [currentPage setCurrentPage].
    repeat split; try discriminate; lia.
  - unfold nextDisabled in Hclick.
    destruct (Z.eqb_spec (currentPage (ui w)) (totalPages (ui w)));
      [discriminate|].
    injection Hclick as <-. subst w'. cbn [step ui].
    rewrite Hpages. cbn [currentPage setCurrentPage].
    repeat split; try discriminate; lia.
  - destruct (bool_decide_reflect (page ∈ pageButtons (ui w))) as [Hin|];
      [|discriminate].
    injection Hclick as <-. subst w'. cbn [step ui].
    rewrite Hpages. cbn [currentPage setCurrentPage].
    unfold pageButtons in Hin.
    apply list_elem_of_fmap in Hin as (i & -> & Hi).
    apply elem_of_seq in Hi.
    repeat split; try discriminate; try lia.
    intros page' [= <-]. reflexivity.
Qed.

End PagerProperties.

Section DebounceProperties.
Import Js Listings.
Context `{host : Host} `{env : Env}.

Lemma sentBy_snoc (a i : nat) (r : Request) (l : list (nat * Request)) :
  snd <$> filter (fun x => fst x = a) (l ++ [(i, r)]) =
  (snd <$> filter (fun x => fst x = a) l)
  ++ (if decide (i = a) then [r] else []).
Proof.
  rewrite filter_app, fmap_app. f_equal.
  rewrite filter_cons, filter_nil. cbn [fst].
  destruct (decide (i = a)); reflexivity.
Qed.

Lemma cleared_cleanup (cs : list Cycle) (a : nat) (c : Cycle) :
  cs !! a = Some c -> phase c = TimerCleared ->
  exists c', cleanup cs !! a = Some c' /\ phase c' = TimerCleared.
Proof.
  intros Hc Hph. unfold cleanup. rewrite list_lookup_alter.
  case_decide as Hi.
  - rewrite Hi, Hc. exists (cleanupCycle c). split; [reflexivity|].
    cbn. rewrite Hph. reflexivity.
  - exists c. auto.
Qed.

(** Every event leaves a cleared run cleared and adds nothing to what it
    has sent; its own events change nothing at all. *)
Lemma cleared_step (w : World) (a : nat) (e : Event) :
  cleared w a ->
  cleared (step w e) a
  /\ sentBy a (step w e) = sentBy a w
  /\ (Spec.ofCycle a e -> step w e = w).
Proof.
  intros Hs. pose proof Hs as (c & Hc & Hph).
  assert (Hset : forall i ci c', cycles w !! i = Some ci ->
             phase ci <> TimerCleared ->
             exists d, <[i := c']> (cycles w) !! a = Some d
                       /\ phase d = TimerCleared).
  { intros i ci c' Hi Hne. exists c.
    rewrite list_lookup_insert_ne; [auto|]. intros ->. congruence. }
  assert (Hrestart : forall st,
             exists d, restartCycle st (cycles w) !! a = Some d
                       /\ phase d = TimerCleared).
  { intros st. unfold restartCycle.
    destruct (cleared_cleanup _ _ _ Hc Hph) as (c' & Hc' & H').
    exists c'. split; [|exact H'].
    rewrite lookup_app_l; [exact Hc'|]. eapply lookup_lt_Some, Hc'. }
  destruct e as [k|upd|upd|q|page|i|i o rnd|i o rnd|];
    cbn [step Spec.ofCycle].
  - destruct (ListingType_eqb k (activeType (ui w)));
      (split; [exact Hs|]); (split; [reflexivity|contradiction]).
  - split; [apply Hrestart|]. split; [reflexivity|contradiction].
  - split; [apply Hrestart|]. split; [reflexivity|contradiction].
  - split; [exact Hs|]. split; [reflexivity|contradiction].
  - split; [exact Hs|]. split; [reflexivity|contradiction].
  - destruct (cycles w !! i) as [ci|] eqn:Hi; [|auto].
    destruct (phase ci) eqn:Hpi; auto.
    assert (Hia : i <> a) by (intros ->; congruence).
    split; [apply (Hset i ci); [exact Hi|congruence]|].
    split; [|intros Heq; congruence].
    unfold sentBy, timerFires. cbn [sent].
    rewrite sentBy_snoc.
    destruct (decide (i = a)); [contradiction|]. apply app_nil_r.
  - destruct (cycles w !! i) as [ci|] eqn:Hi; [|auto].
    destruct (phase ci) eqn:Hpi; auto.
    assert (Hia : i <> a) by (intros ->; congruence).
    unfold rentSettles.
    destruct (rentDataOf o ≫= transformedProperties (seenFilters ci) rnd);
      (split; [apply (Hset i ci); [exact Hi|congruence]|]);
      (split; [|intros Heq; congruence]); unfold sentBy; cbn [sent];
      [|reflexivity].
    rewrite sentBy_snoc.
    destruct (decide (i = a)); [contradiction|]. apply app_nil_r.
  - destruct (cycles w !! i) as [ci|] eqn:Hi; [|auto].
    destruct (phase ci) eqn:Hpi; auto.
    assert (Hia : i <> a) by (intros ->; congruence).
    unfold carSettles.
    destruct (carDataOf o ≫= transformedCars rnd);
      (split; [apply (Hset i ci); [exact Hi|congruence]|]);
      (split; [reflexivity|intros Heq; congruence]).
  - split; [|split; [reflexivity|contradiction]].
    unfold cleared. cbn [cycles]. apply (cleared_cleanup _ _ _ Hc Hph).
Qed.

Lemma cleared_run (w : World) (a : nat) (events : list Event) :
  cleared w a ->
  cleared (run w events) a /\ sentBy a (run w events) = sentBy a w.
Proof.
  revert w. induction events as [|e events IH]; intros w Hs; [auto|].
  destruct (cleared_step w a e Hs) as (Hs' & Hsent & _).
  destruct (IH _ Hs') as [Hc Hr]. unfold run in *. cbn [foldl].
  split; [exact Hc|]. rewrite Hr. exact Hsent.
Qed.

(** X14.  Debounce.  When a filter object changes, or the page is left,
    while the timer of the run in force is still pending, that run never
    sends a request and never writes to the page: whatever follows, what
    it has sent stays empty and its timer firing changes nothing. *)
Theorem debounced_run_never_starts (w : World) (a : nat) (c : Cycle)
    (change : Event) (events : list Event) :
  cycles w !! a = Some c ->
  S a = length (cycles w) ->
  phase c = TimerPending ->
  sentBy a w = [] ->
  Spec.isFilterChange change \/ change = Unmount ->
  let w' := run (step w change) events in
  sentBy a w' = [] /\ step w' (TimerFires a) = w'.
Proof.
  intros Hc Hlast Hp Hsent Hch w'.
  assert (Hcl : cleared (step w change) a
                /\ sentBy a (step w change) = sentBy a w).
  { assert (Hclean : exists d, cleanup (cycles w) !! a = Some d
                               /\ phase d = TimerCleared).
    { exists (cleanupCycle c). unfold cleanup.
      replace (pred (length (cycles w))) with a by lia.
      rewrite list_lookup_alter_eq, Hc. split; [reflexivity|].
      cbn. rewrite Hp. reflexivity. }
    destruct Hclean as (d & Hd & Hpd).
    assert (Happ : forall x, (cleanup (cycles w) ++ x) !! a = Some d).
    { intros x. rewrite lookup_app_l; [exact Hd|].
      eapply lookup_lt_Some, Hd. }
    destruct Hch as [Hch| ->].
    - destruct change; try contradiction; cbn [step];
        (split; [exists d; split; [apply Happ|exact Hpd]|reflexivity]).
    - cbn [step]. split; [exists d; auto|reflexivity]. }
  destruct Hcl as [Hcl Hs0].
  destruct (cleared_run _ a events Hcl) as [Hcl' Hs'].
  fold w' in Hcl', Hs'. split; [congruence|].
  apply (cleared_step w' a (TimerFires a) Hcl'). reflexivity.
Qed.

Lemma last_lookup_pred {A} (l : list A) : last l = l !! pred (length l).
Proof. apply last_lookup. Qed.

Lemma oneLiveRun_step (w : World) (e : Event) :
  oneLiveRun w -> oneLiveRun (step w e).
Proof.
  intros [Hold (c & Hlast & Hf & Hcf)].
  assert (Hne : cycles w <> []).
  { intros Hnil. rewrite Hnil in Hlast. discriminate. }
  assert (Hlen : (0 < length (cycles w))%nat).
  { destruct (cycles w); [congruence|cbn; lia]. }
  (* a run of the callback moves one cycle on and keeps its flags *)
  assert (Hmove : forall i ci ph st sn,
             cycles w !! i = Some ci -> ph <> TimerPending ->
             filters st = filters (ui w) ->
             carFilters st = carFilters (ui w) ->
             oneLiveRun {| ui := st;
                           cycles := <[i := setPhase ph ci]> (cycles w);
                           sent := sn |}).
  { intros i ci ph st sn Hi Hph Hfs Hcfs. split; cbn [cycles ui].
    - intros j cj Hj Hlt. rewrite length_insert in Hlt.
      destruct (decide (i = j)) as [->|Hij].
      + rewrite (lookup_set _ _ ci _ Hi) in Hj. injection Hj as <-.
        destruct (Hold j ci Hi Hlt) as [Hcan _]. split; [exact Hcan|exact Hph].
      + rewrite list_lookup_insert_ne in Hj by exact Hij. eauto.
    - rewrite last_lookup_pred, length_insert.
      rewrite last_lookup_pred in Hlast.
      destruct (decide (i = pred (length (cycles w)))) as [->|Hij].
      + rewrite (lookup_set _ _ ci _ Hi).
        assert (ci = c) as -> by congruence.
        eexists. split; [reflexivity|]. split; [rewrite Hfs|rewrite Hcfs];
          assumption.
      + rewrite list_lookup_insert_ne by exact Hij.
        exists c. split; [exact Hlast|]. split; congruence. }
  (* a change of a filter object cancels the newest run and adds one *)
  assert (Hrestart : forall st sn,
             oneLiveRun {| ui := setCurrentPage 1 st;
                           cycles := restartCycle st (cycles w);
                           sent := sn |}).
  { intros st sn. unfold restartCycle. split; cbn [cycles ui].
    - intros j cj Hj Hlt. rewrite length_app in Hlt. cbn [length] in Hlt.
      unfold cleanup in *. rewrite length_alter in Hlt.
      rewrite lookup_app_l in Hj by (rewrite length_alter; lia).
      rewrite list_lookup_alter in Hj. case_decide as Hi.
      * destruct (cycles w !! pred (length (cycles w))) as [cl|] eqn:Hl;
          [|discriminate].
        cbn in Hj. injection Hj as <-. split; [reflexivity|].
        cbn. destruct (phase cl); discriminate.
      * apply (Hold j cj Hj). lia.
    - rewrite last_snoc. eexists. split; [reflexivity|]. split; reflexivity. }
  destruct e as [k|upd|upd|q|page|i|i o rnd|i o rnd|]; cbn [step].
  - destruct (ListingType_eqb k (activeType (ui w)));
      [split; eauto|]. split; [exact Hold|]. exists c. auto.
  - apply Hrestart.
  - apply Hrestart.
  - split; [exact Hold|]. exists c. auto.
  - split; [exact Hold|]. exists c. auto.
  - destruct (cycles w !! i) as [ci|] eqn:Hi; [|split; eauto].
    destruct (phase ci) eqn:Hpi; try (split; eauto; fail).
    apply (Hmove i ci); auto.
  - destruct (cycles w !! i) as [ci|] eqn:Hi; [|split; eauto].
    destruct (phase ci) eqn:Hpi; try (split; eauto; fail).
    unfold rentSettles.
    destruct (rentDataOf o ≫= transformedProperties (seenFilters ci) rnd);
      apply (Hmove i ci); auto; try discriminate;
      unfold finally; destruct (cancel ci); reflexivity.
  - destruct (cycles w !! i) as [ci|] eqn:Hi; [|split; eauto].
    destruct (phase ci) eqn:Hpi; try (split; eauto; fail).
    unfold carSettles.
    destruct (carDataOf o ≫= transformedCars rnd); apply (Hmove i ci); auto; try discriminate;
      unfold finally; destruct (cancel ci); reflexivity.
  - split; cbn [cycles ui].
    + intros j cj Hj Hlt. unfold cleanup in *.
      rewrite length_alter in Hlt. rewrite list_lookup_alter_ne in Hj by lia.
      eauto.
    + rewrite last_lookup_pred in *. unfold cleanup.
      rewrite length_alter, list_lookup_alter_eq, Hlast.
      eexists. split; [reflexivity|]. auto.
Qed.

Lemma oneLiveRun_mount : oneLiveRun mount.
Proof.
  split.
  - intros [|i] c Hi Hlt; cbn in *; [lia|discriminate].
  - eexists. repeat split.
Qed.

Lemma oneLiveRun_run (w : World) (events : list Event) :
  oneLiveRun w -> oneLiveRun (run w events).
Proof.
  revert w. induction events as [|e events IH]; intros w Hw; [exact Hw|].
  apply IH, oneLiveRun_step, Hw.
Qed.

(** X15.  At every moment only the newest run of the fetch effect can still
    write to the page: every older run is cancelled; and the newest run
    was started with the filters the page now shows, so that its request,
    once its timer fires, asks for them. *)
Theorem one_live_run (events : list Event) :
  let w := run mount events in
  (forall i c, cycles w !! i = Some c -> S i < length (cycles w) ->
               cancel c = true)
  /\ (forall a c, cycles w !! a = Some c -> S a = length (cycles w) ->
        phase c = TimerPending ->
        sent (step w (TimerFires a)) =
          sent w ++ [(a, rentcastRequest (filters (ui w)))]).
Proof.
  intros w.
  assert (Hinv : oneLiveRun w) by apply oneLiveRun_run, oneLiveRun_mount.
  destruct Hinv as [Hold (c & Hlast & Hf & _)]. split.
  - intros i ci Hi Hlt. apply (Hold i ci Hi Hlt).
  - intros a ca Ha Hlen Hp. rewrite (step_timer w a ca Ha Hp).
    cbn [timerFires sent]. rewrite last_lookup_pred in Hlast.
    replace (pred (length (cycles w))) with a in Hlast by lia.
    assert (ca = c) as -> by congruence. rewrite Hf. reflexivity.
Qed.

(** X16.  Once the page is left nothing writes to it any more: whatever
    timers fire and requests settle afterwards, the component state stays
    as it was at the unmount. *)
Theorem unmounted_page_is_not_written (events later : list Event) :
  Forall (fun e => exists a, Spec.ofCycle a e) later ->
  let w := step (run mount events) Unmount in
  ui (run w later) = ui w.
Proof.
  intros Hlater w.
  assert (Hall : forall i c, cycles w !! i = Some c -> stale w i).
  { intros i c Hi. exists c. split; [exact Hi|].
    destruct (oneLiveRun_run mount events oneLiveRun_mount)
      as [Hold (cl & Hlast & _)].
    subst w. cbn [step cycles] in *. unfold cleanup in *.
    rewrite last_lookup_pred in Hlast.
    rewrite list_lookup_alter in Hi. case_decide as Hd.
    - rewrite Hlast in Hi. injection Hi as <-. split; [reflexivity|].
      cbn. destruct (phase cl); discriminate.
    - apply (Hold i c Hi).
      apply lookup_lt_Some in Hi. lia. }
  clearbody w. revert w Hall.
  induction later as [|e later IH]; intros w Hall; [reflexivity|].
  inversion Hlater as [|? ? [a Ha] Hrest]; subst.
  unfold run in *. cbn [foldl].
  assert (Hstep : ui (step w e) = ui w
                  /\ forall i c, cycles (step w e) !! i = Some c ->
                                 stale (step w e) i).
  { destruct (cycles w !! a) as [ca|] eqn:Hca.
    - split; [apply (stale_step w a e (Hall a ca Hca)), Ha|].
      intros i c Hi.
      assert (Hlen : length (cycles (step w e)) = length (cycles w)).
      { destruct e; try contradiction; cbn [step Spec.ofCycle] in *;
          subst; rewrite Hca; destruct (phase ca); try reflexivity;
          unfold timerFires, rentSettles, carSettles;
          repeat case_match; cbn [cycles]; rewrite ?length_insert;
          reflexivity. }
      apply lookup_lt_Some in Hi. rewrite Hlen in Hi.
      destruct (lookup_lt_is_Some_2 _ _ Hi) as [c0 Hc0].
      apply (stale_step w i e (Hall i c0 Hc0)).
    - assert (Hsame : step w e = w).
      { destruct e; try contradiction; cbn [step Spec.ofCycle] in *;
          subst; rewrite Hca; reflexivity. }
      rewrite Hsame. auto. }
  destruct Hstep as [Hui Hall'].
  rewrite (IH Hrest _ Hall'). exact Hui.
Qed.

End DebounceProperties.

Section BatchProperties.
Import Js Listings.
Context `{host : Host} `{env : Env}.

Lemma mapWithIndex_spec {A B} (f : A -> nat -> option B) (l : list A)
    (start : nat) :
  match mapWithIndex f l start with
  | None => exists i x, l !! i = Some x /\ f x (start + i)%nat = None
  | Some ys =>
      length ys = length l
      /\ forall i x, l !! i = Some x ->
           exists y, ys !! i = Some y /\ f x (start + i)%nat = Some y
  end.
Proof.
  revert start. induction l as [|x l IH]; intros start; cbn [mapWithIndex].
  - split; [reflexivity|]. intros i x Hx. discriminate.
  - destruct (f x start) as [y|] eqn:Hy.
    + specialize (IH (S start)).
      destruct (mapWithIndex f l (S start)) as [ys|].
      * destruct IH as [Hlen Hall]. split; [cbn; lia|].
        intros [|i] z Hz; cbn in Hz.
        -- injection Hz as <-. exists y. rewrite Nat.add_0_r. auto.
        -- destruct (Hall i z Hz) as (y' & Hy' & Hf). exists y'.
           split; [exact Hy'|]. rewrite <- Hf. f_equal. lia.
      * destruct IH as (i & z & Hz & Hf). exists (S i), z.
        split; [exact Hz|]. rewrite <- Hf. f_equal. lia.
    + exists 0%nat, x. rewrite Nat.add_0_r. auto.
Qed.

(** A batch is lost exactly when the callback throws on one of its
    records; a batch that is returned has a listing for every record, in
    order. *)
Lemma mapWithIndex_all_or_nothing {A B} (f : A -> nat -> option B)
    (l : list A) :
  (mapWithIndex f l 0 = None <->
   exists i x, l !! i = Some x /\ f x i = None)
  /\ (forall ys, mapWithIndex f l 0 = Some ys ->
        length ys = length l
        /\ forall i x, l !! i = Some x ->
             exists y, ys !! i = Some y /\ f x i = Some y).
Proof.
  pose proof (mapWithIndex_spec f l 0) as Hspec.
  destruct (mapWithIndex f l 0) as [ys|].
  - destruct Hspec as [Hlen Hall]. split.
    + split; [discriminate|]. intros (i & x & Hx & Hnone).
      destruct (Hall i x Hx) as (y & _ & Hy). cbn in Hy. congruence.
    + intros ys' [= <-]. split; [exact Hlen | exact Hall].
  - split; [|discriminate]. split; [intros _; exact Hspec | reflexivity].
Qed.

Lemma toStr_ownsToString (v : JsVal) (s : string) :
  ownsToString v -> toStr (logicalOr v (JStr s)) = None.
Proof.
  intros (m & -> & [x Hx]). unfold logicalOr. cbn [truthy toStr].
  rewrite Hx. reflexivity.
Qed.

Lemma toNumber_ownsToString (v : JsVal) :
  ownsToString v -> truthy v = true /\ localeNumber v = None.
Proof.
  intros (m & -> & [x Hx]). split; [reflexivity|].
  unfold localeNumber, toNumber. cbn [toStr]. rewrite Hx. reflexivity.
Qed.

(** The property callback throws on a record whose [city] cannot be
    printed. *)
Lemma transformProperty_city (f : Filters) (rnd : Z) (p : RawRecord)
    (i : nat) :
  ownsToString (get p "city") -> transformProperty f rnd p i = None.
Proof.
  intros Hcity. unfold transformProperty.
  rewrite (toStr_ownsToString _ (city f) Hcity).
  destruct (logicalOrElse _ _); [|reflexivity]. cbn [mbind option_bind].
  match goal with
  | |- mbind _ ?e = None => destruct e; reflexivity
  end.
Qed.

(** The vehicle callback throws on a record whose [price] cannot be turned
    into a number. *)
Lemma transformCar_price_throws (rnd : Z) (c : RawRecord) (i : nat) :
  ownsToString (get c "price") -> transformCar rnd c i = None.
Proof.
  intros Hprice. unfold transformCar.
  destruct (toNumber_ownsToString _ Hprice) as [-> ->]. reflexivity.
Qed.

(** X17.  Each batch is all or nothing.  The property batch is lost exactly
    when the callback throws on one of its records, and a batch that is
    returned has one listing per record, in order, record [i] normalized
    with index [i].  The same holds of the vehicle batch, which has the
    demo vehicle before the listings of the records.  The property
    callback throws on a record with a truthy [propertyType] and a truthy
    [addressLine1] that is not a string, and on a record whose [city] is
    an object with a member [toString] of its own; the vehicle callback
    throws on a record whose [price] is such an object.  When the members
    of every record are primitives, the property batch is lost exactly
    when a record is of the first kind, and the vehicle batch is not
    lost. *)
Theorem batches_keep_every_record (f : Filters) (rnd : nat -> Z)
    (rentData carData : list RawRecord) :
  (transformedProperties f rnd rentData = None <->
   exists i p, rentData !! i = Some p
               /\ transformProperty f (rnd i) p i = None)
  /\ (forall ps, transformedProperties f rnd rentData = Some ps ->
        length ps = length rentData
        /\ forall i p, rentData !! i = Some p ->
             exists listing, ps !! i = Some listing
                        /\ transformProperty f (rnd i) p i = Some listing)
  /\ (transformedCars rnd carData = None <->
      exists i c, carData !! i = Some c /\ transformCar (rnd i) c i = None)
  /\ (forall cars, transformedCars rnd carData = Some cars ->
        length cars = S (length carData)
        /\ cars !! 0%nat = Some demoCar
        /\ forall i c, carData !! i = Some c ->
             exists listing, cars !! S i = Some listing
                        /\ transformCar (rnd i) c i = Some listing)
  /\ (forall p i, throwsOn p = true \/ ownsToString (get p "city") ->
        transformProperty f (rnd i) p i = None)
  /\ (forall c i, ownsToString (get c "price") ->
        transformCar (rnd i) c i = None)
  /\ (Forall flat rentData ->
      (transformedProperties f rnd rentData = None <->
       exists p, p ∈ rentData /\ throwsOn p = true))
  /\ (Forall flat carData -> is_Some (transformedCars rnd carData)).
Proof.
  destruct (mapWithIndex_all_or_nothing
              (fun p i => transformProperty f (rnd i) p i) rentData)
    as [Hlost Hkept].
  destruct (mapWithIndex_all_or_nothing
              (fun c i => transformCar (rnd i) c i) carData)
    as [Hlost' Hkept'].
  assert (Hcars : transformedCars rnd carData = None <->
                  exists i c, carData !! i = Some c
                              /\ transformCar (rnd i) c i = None).
  { rewrite <- Hlost'. unfold transformedCars.
    destruct (mapWithIndex _ carData 0); cbn [mbind option_bind];
      split; congruence. }
  split; [exact Hlost|]. split; [exact Hkept|]. split; [exact Hcars|].
  split; [|split; [|split; [|split]]].
  - unfold transformedCars. intros cars Hsome.
    destruct (mapWithIndex _ carData 0) as [vs|]; [|discriminate Hsome].
    cbn [mbind option_bind] in Hsome. injection Hsome as <-.
    destruct (Hkept' vs eq_refl) as [Hlen Hall].
    split; [cbn [length]; rewrite Hlen; reflexivity|].
    split; [reflexivity | exact Hall].
  - intros p i [Hthrow|Hcity];
      [apply transformProperty_throwsOn | apply transformProperty_city];
      assumption.
  - intros c i. apply transformCar_price_throws.
  - intros Hflat. unfold transformedProperties. rewrite Hlost. split.
    + intros (i & p & Hp & Hnone). exists p.
      split; [eapply list_elem_of_lookup_2, Hp|].
      destruct (throwsOn p) eqn:Hthrow; [reflexivity|].
      assert (Hfp : flat p).
      { eapply Forall_forall in Hflat; [exact Hflat|].
        eapply list_elem_of_lookup_2, Hp. }
      destruct (transformProperty_flat f (rnd i) p i Hfp Hthrow) as [x Hx].
      congruence.
    + intros (p & Hin & Hthrow).
      apply list_elem_of_lookup in Hin as [i Hi]. exists i, p.
      split; [exact Hi | apply transformProperty_throwsOn, Hthrow].
  - intros Hflat. destruct (transformedCars rnd carData) eqn:Hsome;
      [eexists; reflexivity|].
    destruct (proj1 Hcars eq_refl) as (i & c & Hc & Hnone).
    assert (Hfc : flat c).
    { eapply Forall_forall in Hflat; [exact Hflat|].
      eapply list_elem_of_lookup_2, Hc. }
    destruct (transformCar_flat (rnd i) c i Hfc) as [x Hx]. congruence.
Qed.

(** X18.  A run of the fetch cycle that is not cancelled clears the loading
    flag it has set, however the two requests end.  When the property
    half throws, for any reason (the request rejects, its body cannot be
    read, or the callback throws on a record), the vehicle request is
    never sent and both collections stay as they were. *)
Theorem cycle_always_clears_loading (w : World) (id : nat) (c : Cycle)
    (ro : Fetched (list RawRecord)) (co : Fetched CarJson)
    (r1 r2 : nat -> Z) :
  cycles w !! id = Some c ->
  phase c = TimerPending ->
  cancel c = false ->
  let w' := run w [TimerFires id; RentSettles id ro r1; CarSettles id co r2] in
  loading (ui (step w (TimerFires id))) = true
  /\ loading (ui w') = false
  /\ (rentDataOf ro ≫= transformedProperties (seenFilters c) r1 = None ->
      propertyListings (ui w') = propertyListings (ui w)
      /\ carListings (ui w') = carListings (ui w)
      /\ sentBy id w' = sentBy id w ++ [rentcastRequest (seenFilters c)]).
Proof.
  intros Hc Hp Hcancel w'.
  pose proof (run_cycle w id c ro r1 co r2 Hc Hp) as H. cbv zeta in H.
  fold w' in H. split.
  { rewrite (step_timer w id c Hc Hp). reflexivity. }
  unfold finally in H. rewrite Hcancel in H.
  destruct (rentDataOf ro ≫= transformedProperties (seenFilters c) r1)
    as [ps|].
  - destruct H as [-> _]. split; [|discriminate].
    destruct (carDataOf co ≫= transformedCars r2); reflexivity.
  - destruct H as [-> Hsent]. split; [reflexivity|]. intros _.
    repeat split. unfold sentBy. rewrite Hsent.
    rewrite filter_app, fmap_app, filter_cons, filter_nil. cbn [fst].
    destruct (decide (id = id)); [reflexivity|contradiction].
Qed.

End BatchProperties.

Section FieldProperties.
Import Js Listings.
Context `{host : Host} `{env : Env}.

Lemma pick_in_pool (pool : list string) (i : nat) :
  pool <> [] -> pick pool i ∈ pool.
Proof.
  intros Hne. unfold pick.
  assert (Hlt : (i mod length pool < length pool)%nat).
  { apply Nat.mod_upper_bound. destruct pool; [congruence|discriminate]. }
  destruct (lookup_lt_is_Some_2 pool _ Hlt) as [x Hx].
  rewrite Hx. cbn. eapply list_elem_of_lookup_2, Hx.
Qed.

Lemma stock_images_http (s : string) :
  s ∈ propertyImages ++ carImages -> String.prefix "http" s = true.
Proof.
  unfold propertyImages, carImages. cbn [app]. intros H.
  repeat (apply elem_of_cons in H as [->|H]; [reflexivity|]).
  apply elem_of_nil in H. contradiction.
Qed.

Lemma append_nonempty_r (a b : string) : b <> "" -> a +:+ b <> "".
Proof. intros Hb. destruct a; [exact Hb|discriminate]. Qed.

Lemma truthy_logicalOr_str (v : JsVal) (s : string) :
  s <> "" -> truthy (logicalOr v (JStr s)) = true.
Proof.
  intros Hs. unfold logicalOr. destruct (truthy v) eqn:Hv; [exact Hv|].
  cbn. apply negb_true_iff, String.eqb_neq, Hs.
Qed.

Lemma coalesce_not_nullish (v : JsVal) (s : string) :
  nullish (coalesce v (JStr s)) = false.
Proof.
  unfold coalesce. destruct (nullish v) eqn:Hv; [reflexivity|exact Hv].
Qed.

Lemma transformProperty_image_condition (f : Filters) (rnd : Z)
    (r : RawRecord) (i : nat) (p : PropertyListing.t) :
  transformProperty f rnd r i = Some p ->
  PropertyListing.image p ∈ propertyImages
  /\ PropertyListing.condition p = (rnd + 70)%Z.
Proof.
  unfold transformProperty. intros H. unbind H. injection H as <-.
  split; [|reflexivity]. apply pick_in_pool. discriminate.
Qed.

(** The members of a normalized vehicle that are set without a
    conversion. *)
Lemma transformCar_members (rnd : Z) (c : RawRecord) (i : nat)
    (v : CarListing.t) :
  transformCar rnd c i = Some v ->
  CarListing.id v = logicalOr (get c "id") (JStr ("car-" +:+ pretty i))
  /\ CarListing.make v = buildOr c "make" "Unknown"
  /\ CarListing.image v =
       logicalOr (optFirst (optMember (get c "media") "photo_links"))
         (JStr (pick carImages i))
  /\ CarListing.condition v = (rnd + 70)%Z.
Proof.
  unfold transformCar. intros H. unbind H. injection H as <-.
  repeat split.
Qed.

Lemma transformCar_stock_image (rnd : Z) (c : RawRecord) (i : nat)
    (v : CarListing.t) :
  transformCar rnd c i = Some v ->
  truthy (optFirst (optMember (get c "media") "photo_links")) = false ->
  exists s, CarListing.image v = JStr s /\ s ∈ carImages.
Proof.
  intros Hv Hno.
  destruct (transformCar_members rnd c i v Hv) as (_ & _ & -> & _).
  unfold logicalOr. rewrite Hno. eexists. split; [reflexivity|].
  apply pick_in_pool. discriminate.
Qed.

(** On a record whose [build] is a string, [c.build?.trim] is the built-in
    method of strings: it is truthy, and its text ends the details. *)
Lemma transformCar_string_build (rnd : Z) (c : RawRecord) (i : nat)
    (v : CarListing.t) (s : string) :
  get c "build" = JStr s ->
  transformCar rnd c i = Some v ->
  exists body transmission,
    CarListing.details v =
      body +:+ transmission +:+ " • " +:+ fun_toString "trim".
Proof.
  intros Hbuild Hv. unfold transformCar in Hv.
  assert (Htrim : bulleted (buildOr c "trim" "")
                  = Some (" • " +:+ fun_toString "trim")).
  { unfold buildOr. rewrite Hbuild. reflexivity. }
  rewrite Htrim in Hv. unbind Hv. injection Hv as <-.
  eexists _, _. reflexivity.
Qed.

(** X19.  Every listing the property normalizer returns has its defended
    fields populated: a truthy id, bedrooms and bathrooms that are not
    nullish, a non-empty area, a location with the separator, and one of
    the six stock images, the one at the index modulo six. *)
Theorem property_fields_populated (f : Filters) (rnd : Z) (r : RawRecord)
    (i : nat) (p : PropertyListing.t) :
  transformProperty f rnd r i = Some p ->
  truthy (PropertyListing.id p) = true
  /\ nullish (PropertyListing.bedrooms p) = false
  /\ nullish (PropertyListing.bathrooms p) = false
  /\ PropertyListing.sqft p <> ""
  /\ (exists a b, PropertyListing.location p = a +:+ ", " +:+ b)
  /\ PropertyListing.image p ∈ propertyImages
  /\ propertyImages !! (i mod 6)%nat = Some (PropertyListing.image p)
  /\ PropertyListing.condition p = (rnd + 70)%Z.
Proof.
  unfold transformProperty. intros H. unbind H. injection H as <-.
  cbn [PropertyListing.id PropertyListing.bedrooms
       PropertyListing.bathrooms PropertyListing.sqft PropertyListing.location
       PropertyListing.image PropertyListing.condition].
  split.
  { unfold logicalOrElse in E. destruct (truthy (get r "id")) eqn:Hid.
    - injection E as <-. exact Hid.
    - unbind E. injection E as <-. cbn [truthy].
      apply negb_true_iff, String.eqb_neq. destruct (pretty i); discriminate. }
  split; [apply coalesce_not_nullish|].
  split; [apply coalesce_not_nullish|].
  split.
  { destruct (truthy (get r "squareFootage")).
    - unbind E4. injection E4 as <-. apply append_nonempty_r. discriminate.
    - injection E4 as <-. discriminate. }
  split; [eexists _, _; reflexivity|].
  split; [apply pick_in_pool; discriminate|].
  split; [|reflexivity].
  unfold pick. change (length propertyImages) with 6%nat.
  destruct (lookup_lt_is_Some_2 propertyImages (i mod 6)) as [x Hx].
  - change (length propertyImages) with 6%nat.
    apply Nat.mod_upper_bound. discriminate.
  - rewrite Hx. reflexivity.
Qed.

(** X20.  Every listing the vehicle normalizer returns has a truthy id, make
    and image, a non-empty mileage and title, and a year that is the text
    of the title's first part. *)
Theorem vehicle_fields_populated (rnd : Z) (c : RawRecord) (i : nat)
    (v : CarListing.t) :
  transformCar rnd c i = Some v ->
  truthy (CarListing.id v) = true
  /\ truthy (CarListing.make v) = true
  /\ truthy (CarListing.image v) = true
  /\ CarListing.mileage v <> ""
  /\ CarListing.title v <> ""
  /\ (exists rest, CarListing.title v = CarListing.year v +:+ " " +:+ rest)
  /\ CarListing.condition v = (rnd + 70)%Z
  /\ (truthy (optFirst (optMember (get c "media") "photo_links")) = false ->
      exists s, CarListing.image v = JStr s /\ s ∈ carImages).
Proof.
  intros Hv.
  pose proof (transformCar_stock_image rnd c i v Hv) as Hstock.
  unfold transformCar in Hv. unbind Hv. injection Hv as <-.
  cbn [CarListing.id CarListing.make CarListing.image CarListing.mileage
       CarListing.title CarListing.year CarListing.condition] in *.
  split; [apply truthy_logicalOr_str; discriminate|].
  split.
  { unfold buildOr. rewrite logicalOr_truthy. apply orb_true_iff. right.
    apply truthy_logicalOr_str. discriminate. }
  assert (Hpick : pick carImages i ∈ carImages)
    by (apply pick_in_pool; discriminate).
  split.
  { apply truthy_logicalOr_str. intros Heq. rewrite Heq in Hpick.
    unfold carImages in Hpick.
    repeat (apply elem_of_cons in Hpick as [Hpick|Hpick];
            [discriminate|]).
    apply elem_of_nil in Hpick. contradiction. }
  split.
  { destruct (truthy (get c "miles")).
    - unbind E0. injection E0 as <-. apply append_nonempty_r. discriminate.
    - injection E0 as <-. discriminate. }
  split; [apply append_space|].
  split; [eexists; reflexivity|].
  split; [reflexivity|]. exact Hstock.
Qed.

End FieldProperties.

Section RequestProperties.
Import Js Listings.
Context `{host : Host} `{env : Env}.

Lemma optionalParam_elem (k v k0 v0 : string) :
  (k, v) ∈ optionalParam k0 v0 <-> k = k0 /\ v = v0 /\ v <> "".
Proof.
  unfold optionalParam. destruct (String.eqb_spec v0 "") as [->|Hne].
  - split; [intros H; apply elem_of_nil in H; contradiction|].
    intros (_ & -> & H). contradiction.
  - rewrite list_elem_of_singleton. split.
    + intros [= -> ->]. auto.
    + intros (-> & -> & _). reflexivity.
Qed.

Lemma optionalParam_keys (k0 v0 : string) :
  fst <$> optionalParam k0 v0 = if v0 =? "" then [] else [k0].
Proof. unfold optionalParam. destruct (v0 =? ""); reflexivity. Qed.

(** X21.  The query of each request has no key twice, always has its fixed
    parameters, and has an optional parameter exactly when the filter it
    comes from is not empty, with the value of that filter. *)
Theorem request_parameters (f : Filters) (cf : CarFilters) (k v : string) :
  NoDup (fst <$> paramsOf (rentcastRequest f))
  /\ NoDup (fst <$> paramsOf (marketcheckRequest cf))
  /\ ((k, v) ∈ paramsOf (rentcastRequest f) <->
      (k, v) ∈ [("city", city f); ("state", "TX"); ("status", "Active");
                ("limit", "24"); ("propertyType", propertyType f)]
      \/ (v <> ""
          /\ (k, v) ∈ [("minBedrooms", bedrooms f);
                       ("minBathrooms", bathrooms f);
                       ("minSquareFootage", sqftMin f);
                       ("maxSquareFootage", sqftMax f)]))
  /\ ((k, v) ∈ paramsOf (marketcheckRequest cf) <->
      (k, v) ∈ [("api_key", MARKETCHECK_API_KEY); ("rows", "24");
                ("zip", "75080"); ("radius", "50"); ("car_type", "used")]
      \/ (v <> ""
          /\ (k, v) ∈ [("make", make cf); ("body_type", bodyType cf);
                       ("exterior_color", color cf)])).
Proof.
  unfold rentcastRequest, marketcheckRequest. cbn [paramsOf].
  split; [|split; [|split]].
  - rewrite !fmap_app, !optionalParam_keys. cbn [fmap list_fmap fst].
    destruct (bedrooms f =? ""), (bathrooms f =? ""), (sqftMin f =? ""),
      (sqftMax f =? ""); cbn [app];
      apply (bool_decide_unpack _); vm_compute; reflexivity.
  - rewrite !fmap_app, !optionalParam_keys. cbn [fmap list_fmap fst].
    destruct (make cf =? ""), (bodyType cf =? ""), (color cf =? "");
      cbn [app]; apply (bool_decide_unpack _); vm_compute; reflexivity.
  - rewrite !elem_of_app, !optionalParam_elem, !elem_of_cons, elem_of_nil.
    split.
    + intros [H|[H|[H|[H|H]]]]; [left; exact H|..];
        destruct H as (-> & -> & Hne); right; (split; [exact Hne|]); auto 6.
    + intros [H|[Hne [H|[H|[H|[H|[]]]]]]]; [left; exact H|..];
        injection H as -> ->; auto 8.
  - rewrite !elem_of_app, !optionalParam_elem, !elem_of_cons, elem_of_nil.
    split.
    + intros [H|[H|[H|H]]]; [left; exact H|..];
        destruct H as (-> & -> & Hne); right; (split; [exact Hne|]); auto 6.
    + intros [H|[Hne [H|[H|[H|[]]]]]]; [left; exact H|..];
        injection H as -> ->; auto 8.
Qed.

End RequestProperties.

Section NarrowingProperties.
Import Js Listings.
Context `{host : Host}.

Lemma append_assoc (a b c : string) : (a +:+ b) +:+ c = a +:+ b +:+ c.
Proof.
  induction a as [|x a IH]; [reflexivity|].
  rewrite !append_cons, IH. reflexivity.
Qed.

Lemma includes_trans (s q' q : string) :
  includes s q' = true -> includes q' q = true -> includes s q = true.
Proof.
  rewrite !includes_app.
  intros (pre & post & ->) (pre' & post' & ->).
  exists (pre +:+ pre'), (post' +:+ post).
  rewrite !append_assoc. reflexivity.
Qed.

Lemma matchesQuery_narrow (kind : ListingType) (q' q : string)
    (l : Listing) :
  includes q' q = true ->
  matchesQuery kind q' l = true -> matchesQuery kind q l = true.
Proof.
  intros Hq. unfold matchesQuery.
  assert (H : forall s, includes s q' = true -> includes s q = true)
    by (intros s Hs; exact (includes_trans s q' q Hs Hq)).
  destruct (includes (lowered (titleOf l)) q') eqn:Ht;
    [rewrite (H _ Ht); reflexivity|].
  destruct (includes (lowered (titleOf l)) q); [reflexivity|].
  destruct (includes (lowered (priceOf l)) q') eqn:Hp;
    [rewrite (H _ Hp); reflexivity|].
  destruct (includes (lowered (priceOf l)) q); [reflexivity|].
  destruct kind; rewrite !orb_true_iff; intuition auto.
Qed.

Lemma filter_narrow {A} (f g : A -> bool) (l : list A) :
  (forall x, f x = true -> g x = true) ->
  List.filter f l `sublist_of` List.filter g l.
Proof.
  intros Hfg. induction l as [|x l IH]; [constructor|].
  cbn [List.filter]. destruct (f x) eqn:Hf.
  - rewrite (Hfg x Hf). constructor. exact IH.
  - destruct (g x); [constructor|]; exact IH.
Qed.

Lemma filter_sublist {A} (f : A -> bool) (l : list A) :
  List.filter f l `sublist_of` l.
Proof.
  induction l as [|x l IH]; [constructor|].
  cbn [List.filter]. destruct (f x); constructor; exact IH.
Qed.

(** X22.  Typing on narrows the result.  When the lowered query [q] occurs
    in the lowered query [q'], and [q'] is not blank, every listing found
    for [q'] is found for [q], in the same order. *)
Theorem longer_query_narrows (kind : ListingType) (q q' : string)
    (coll : list Listing) :
  trim q' <> "" ->
  includes (toLowerCase q') (toLowerCase q) = true ->
  filterListings kind q' coll `sublist_of` filterListings kind q coll.
Proof.
  intros Hq' Hin. unfold filterListings.
  apply String.eqb_neq in Hq'. rewrite Hq'.
  destruct (trim q =? ""); [apply filter_sublist|].
  apply filter_narrow. intros l. apply matchesQuery_narrow, Hin.
Qed.

End NarrowingProperties.

Section DetailProperties.
Import Js Listings.
Context `{host : Host} `{env : Env}.

Lemma conditionLabel_cases (c : Z) :
  (conditionLabel c = "Excellent" <-> 90 <= c)%Z
  /\ (conditionLabel c = "Very Good" <-> 80 <= c < 90)%Z
  /\ (conditionLabel c = "Good" <-> c < 80)%Z.
Proof.
  unfold conditionLabel.
  destruct (Z.leb_spec 90 c); [|destruct (Z.leb_spec 80 c)];
    repeat split; intros; try discriminate; try reflexivity; lia.
Qed.

(** X23.  The dialog opened on a normalized listing shows a score between 70
    and 95 when the draw of [Math.random] is within its range, labelled
    [Excellent] from a draw of 20 on, [Very Good] from 10 to 19 and [Good]
    below.  The dialog is dismissed in two ways.  [onOpenChange(false)]
    clears the selection, after which the score expression gives 85,
    [Very Good]; the [Close] button of the footer closes the dialog and
    keeps the selection, after which the score expression still gives the
    score of the listing. *)
Theorem condition_label_of_draw (f : Filters) (rnd : Z) (r : RawRecord)
    (i : nat) (d : Detail) (l : Listing) :
  (0 <= rnd <= 25)%Z ->
  (exists c, transformCar rnd r i = Some c /\ l = CarItem c)
  \/ (exists p, transformProperty f rnd r i = Some p /\ l = PropertyItem p) ->
  let opened := viewDetails l d in
  let c := shownCondition opened in
  dialogOpen opened = true
  /\ (c = rnd + 70 /\ 70 <= c <= 95)%Z
  /\ (conditionLabel c = "Excellent" <-> 20 <= rnd)%Z
  /\ (conditionLabel c = "Very Good" <-> 10 <= rnd < 20)%Z
  /\ (conditionLabel c = "Good" <-> rnd < 10)%Z
  /\ (dialogOpen (onOpenChange false opened) = false
      /\ selectedListing (onOpenChange false opened) = None
      /\ shownCondition (onOpenChange false opened) = 85%Z
      /\ conditionLabel 85 = "Very Good")
  /\ (dialogOpen (closeClicked opened) = false
      /\ selectedListing (closeClicked opened) = Some l
      /\ shownCondition (closeClicked opened) = (rnd + 70)%Z).
Proof.
  intros Hrnd Hl opened c.
  assert (Hc : c = (rnd + 70)%Z).
  { subst c opened. destruct Hl as [(v & Hv & ->)|(p & Hp & ->)].
    - cbn. eapply transformCar_members, Hv.
    - cbn. eapply transformProperty_image_condition, Hp. }
  destruct (conditionLabel_cases c) as (He & Hv & Hg).
  rewrite He, Hv, Hg, Hc.
  split; [reflexivity|]. split; [lia|]. split; [lia|]. split; [lia|].
  split; [lia|]. split; [repeat split|].
  split; [reflexivity|]. split; [reflexivity|]. exact Hc.
Qed.

(** X24.  The dialog opened on a listing of the property normalizer shows
    the photo, not the placeholder, and so does the dialog of a vehicle
    whose record has no truthy first photo link.  For a vehicle whose
    first photo link is a non-empty string the photo is shown exactly when
    the link starts with [http]; when the link is truthy and not a string
    the test throws.  After [onOpenChange(false)] there is no selection and
    the test gives the placeholder; after the [Close] button of the footer
    the selection is kept and the test gives what it gave. *)
Theorem dialog_photo (f : Filters) (rnd : Z) (r : RawRecord) (i : nat)
    (d : Detail) :
  let photo := optFirst (optMember (get r "media") "photo_links") in
  (forall p, transformProperty f rnd r i = Some p ->
             showsPhoto (viewDetails (PropertyItem p) d) = Some true)
  /\ (forall c, transformCar rnd r i = Some c ->
        let shown := showsPhoto (viewDetails (CarItem c) d) in
        (truthy photo = false -> shown = Some true)
        /\ (forall link, photo = JStr link -> link <> "" ->
              shown = Some (String.prefix "http" link))
        /\ (truthy photo = true -> isString photo = false -> shown = None))
  /\ (forall l, showsPhoto (onOpenChange false (viewDetails l d))
                = Some false)
  /\ (forall l, showsPhoto (closeClicked (viewDetails l d))
                = showsPhoto (viewDetails l d)).
Proof.
  intros photo. split; [|split; [|split]].
  - intros p Hp. cbn. f_equal. apply stock_images_http.
    apply elem_of_app. left.
    eapply transformProperty_image_condition, Hp.
  - intros c Hc shown. subst shown.
    cbn [showsPhoto viewDetails selectedListing].
    split; [|split].
    + intros Hno.
      destruct (transformCar_stock_image rnd r i c Hc Hno) as (s & -> & Hin).
      f_equal. apply stock_images_http, elem_of_app. right. exact Hin.
    + intros link Hlink Hne.
      destruct (transformCar_members rnd r i c Hc) as (_ & _ & -> & _).
      fold photo. rewrite Hlink. unfold logicalOr. cbn [truthy].
      apply String.eqb_neq in Hne. rewrite Hne. reflexivity.
    + intros Hyes Hstr.
      destruct (transformCar_members rnd r i c Hc) as (_ & _ & -> & _).
      fold photo. unfold logicalOr. rewrite Hyes.
      destruct photo; try reflexivity; discriminate.
  - reflexivity.
  - reflexivity.
Qed.

End DetailProperties.

Section IdProperties.
Import Js Listings.
Context `{host : Host} `{env : Env}.

Lemma dashFree_append (s t : string) :
  dashFree (s +:+ t) = dashFree s && dashFree t.
Proof.
  induction s as [|a s IH]; [reflexivity|].
  rewrite append_cons. cbn [dashFree]. rewrite IH, andb_assoc. reflexivity.
Qed.

Lemma pretty_N_go_dashFree (x : N) (s : string) :
  dashFree s = true -> dashFree (pretty_N_go x s) = true.
Proof.
  revert s. induction (N.lt_wf_0 x) as [x _ IH]; intros s Hs.
  assert (x = 0 \/ 0 < x)%N as [->|Hpos] by lia.
  - rewrite pretty_N_go_0. exact Hs.
  - rewrite pretty_N_go_step by exact Hpos. apply IH.
    + apply N.div_lt; [exact Hpos|reflexivity].
    + cbn [dashFree]. rewrite Hs, andb_true_r.
      unfold pretty_N_char. repeat case_match; reflexivity.
Qed.

Lemma pretty_nat_dashFree (i : nat) : dashFree (pretty i) = true.
Proof.
  unfold pretty, pretty_nat, pretty, pretty_N.
  case_decide; [reflexivity|]. apply pretty_N_go_dashFree. reflexivity.
Qed.

(** Two texts that agree from their first dash on a dash-free front have
    the same front. *)
Lemma before_dash (s1 s2 a b : string) :
  dashFree s1 = true -> dashFree s2 = true ->
  s1 +:+ "-" +:+ a = s2 +:+ "-" +:+ b -> s1 = s2.
Proof.
  revert s2. induction s1 as [|c s1 IH]; intros [|c2 s2] H1 H2 Heq.
  - reflexivity.
  - rewrite append_empty, append_cons in Heq. injection Heq as <- _.
    cbn in H2. discriminate.
  - rewrite append_empty, append_cons in Heq. injection Heq as -> _.
    cbn in H1. discriminate.
  - rewrite !append_cons in Heq. injection Heq as -> Heq.
    cbn [dashFree] in H1, H2.
    apply andb_true_iff in H1 as [_ H1]. apply andb_true_iff in H2 as [_ H2].
    f_equal. exact (IH s2 H1 H2 Heq).
Qed.

Lemma append_inj_l (s a b : string) : s +:+ a = s +:+ b -> a = b.
Proof.
  induction s as [|c s IH]; [auto|].
  rewrite !append_cons. intros [= H]. auto.
Qed.

(** X25.  Ids made up for records without one never collide within a batch:
    two properties, or two vehicles, at different indices get different
    ids, and no made-up vehicle id is the id of the demo vehicle. *)
Theorem synthesized_ids_distinct (f : Filters) (rnd rnd' : Z)
    (r r' : RawRecord) (i j : nat) :
  truthy (get r "id") = false ->
  truthy (get r' "id") = false ->
  i <> j ->
  (forall c c',
      transformCar rnd r i = Some c ->
      transformCar rnd' r' j = Some c' ->
      CarListing.id c <> CarListing.id c')
  /\ (forall c, transformCar rnd r i = Some c ->
                CarListing.id c <> CarListing.id demoCar)
  /\ (forall p p',
        transformProperty f rnd r i = Some p ->
        transformProperty f rnd' r' j = Some p' ->
        PropertyListing.id p <> PropertyListing.id p').
Proof.
  intros Hr Hr' Hij. split; [|split].
  - intros c c' Hc Hc'.
    destruct (transformCar_members rnd r i c Hc) as (-> & _).
    destruct (transformCar_members rnd' r' j c' Hc') as (-> & _).
    unfold logicalOr. rewrite Hr, Hr'.
    intros [= H]. apply append_inj_l in H.
    apply (inj pretty) in H. contradiction.
  - intros c Hc.
    destruct (transformCar_members rnd r i c Hc) as (-> & _).
    unfold logicalOr. rewrite Hr. cbn [CarListing.id demoCar]. discriminate.
  - intros p p' Hp Hp'.
    assert (Hid : forall rnd0 r0 i0 p0,
               truthy (get r0 "id") = false ->
               transformProperty f rnd0 r0 i0 = Some p0 ->
               exists a, PropertyListing.id p0
                         = JStr (pretty i0 +:+ "-" +:+ a)).
    { intros rnd0 r0 i0 p0 H0 H. unfold transformProperty in H.
      unbind H. injection H as <-. cbn [PropertyListing.id].
      unfold logicalOrElse in E. rewrite H0 in E. unbind E.
      injection E as <-. eexists; reflexivity. }
    destruct (Hid _ _ _ _ Hr Hp) as [a ->].
    destruct (Hid _ _ _ _ Hr' Hp') as [b ->].
    intros [= H]. apply before_dash in H; try apply pretty_nat_dashFree.
    apply (inj pretty) in H. contradiction.
Qed.

End IdProperties.

(** ** More closed examples on the concrete runtime *)

Section ChatMachineExamples.
Import Js Chat PlainHost Examples.

(** After a quick prompt and a click on send, the one request awaited
    carries the prompt. *)
Lemma one_request_in_flight_after_prompt :
  let w := run start [ClickPrompt 2; ClickSend 1000] in
  let r := {| url := "http://127.0.0.1:5000/api/chat"; method := "POST";
              query := "Find luxury apartments in downtown areas" |} in
  r ∈ inFlight w
  /\ exists m, last (messages (page w)) = Some m
               /\ role m = user /\ content m = query r.
Proof.
  cbv zeta.
  pose proof (one_request_in_flight [ClickPrompt 2; ClickSend 1000])
    as (_ & _ & Hreq). cbv zeta in Hreq.
  set (r := {| url := "http://127.0.0.1:5000/api/chat"; method := "POST";
               query := "Find luxury apartments in downtown areas" |}) in *.
  assert (Hfl : inFlight (run start [ClickPrompt 2; ClickSend 1000]) = [r])
    by reflexivity.
  assert (Hin : r ∈ inFlight (run start [ClickPrompt 2; ClickSend 1000])).
  { rewrite Hfl. apply list_elem_of_here. }
  split; [exact Hin | exact (Hreq _ Hin)].
Defined.

(** The listings message of a reply with five listings is in the
    transcript with three of them. *)
Lemma listings_capped_after_five :
  let events := [ClickPrompt 2; ClickSend 1000; Settles 2000 fiveReply] in
  let m := {| id := "2001"; role := assistant;
              listings := Some (take 3 fiveListings); content := "" |} in
  m ∈ messages (page (run start events))
  /\ (1 <= length (take 3 fiveListings) <= 3)%nat
  /\ role m = assistant /\ content m = "".
Proof.
  cbv zeta.
  set (m := {| id := "2001"; role := assistant;
               listings := Some (take 3 fiveListings); content := "" |}).
  assert (Hrun : messages
                   (page (run start [ClickPrompt 2; ClickSend 1000;
                                     Settles 2000 fiveReply])) =
                 [greeting;
                  {| id := "1000"; role := user; listings := None;
                     content := "Find luxury apartments in downtown areas" |};
                  m])
    by reflexivity.
  assert (Hin : m ∈ messages
                      (page (run start [ClickPrompt 2; ClickSend 1000;
                                        Settles 2000 fiveReply]))).
  { rewrite Hrun. do 2 apply list_elem_of_further. apply list_elem_of_here. }
  split; [exact Hin|].
  exact (listings_capped_everywhere _ _ _ Hin eq_refl).
Defined.

(** A turn that fails: the user message stays, no answer is added, a
    toast is shown. *)
Lemma turn_outcome_failed :
  sendDisabled typedPrompt = false
  /\ let '(st1, request) := handleSend 1000 typedPrompt in
     let '(st2, toast) := handleSend_settled 2000 Failed st1 in
     messages st2 =
       messages typedPrompt ++
       [{| id := "1000"; role := user; listings := None;
           content := input typedPrompt |}]
     /\ toast <> None.
Proof.
  split; [reflexivity|].
  generalize (turn_outcome typedPrompt 1000 2000 Failed eq_refl).
  cbv zeta.
  destruct (handleSend 1000 typedPrompt) as [st1 request].
  destruct (handleSend_settled 2000 Failed st1) as [st2 toast].
  intros (_ & _ & _ & _ & _ & Hfail & _). exact (Hfail eq_refl).
Defined.

(** A record with a year and a make, and neither address nor title, is
    headed by the year and then the make. *)
Lemma cardTitle_of_year_and_make :
  let item : RawRecord :=
    {[ "year" := JNum (Some 2020%Z); "make" := JStr "Honda" ]} in
  truthy (get item "address") = false
  /\ truthy (get item "title") = false
  /\ cardTitle item = Some (JStr "2020 Honda").
Proof.
  cbv zeta. split; [reflexivity|]. split; [reflexivity|].
  exact (proj1 (proj2 (proj2
           (cardTitle_priority
              ({[ "year" := JNum (Some 2020%Z); "make" := JStr "Honda" ]}
                 : RawRecord))))
           eq_refl eq_refl "2020" "Honda" eq_refl eq_refl).
Defined.

(** The quick prompts are gone after the first send and stay away when
    the request fails. *)
Lemma quick_prompts_gone_after_send :
  let w := run start [ClickPrompt 0; ClickSend 5] in
  quickPromptsShown (page w) = false
  /\ quickPromptsShown (page (run w [Settles 9 Failed; ChangeInput "x"]))
     = false.
Proof.
  cbv zeta.
  assert (Hgone : quickPromptsShown
                    (page (run start [ClickPrompt 0; ClickSend 5])) = false)
    by reflexivity.
  split; [exact Hgone|].
  exact (proj2 (quick_prompts_until_first_send
                  [ClickPrompt 0; ClickSend 5]
                  [Settles 9 Failed; ChangeInput "x"]) Hgone).
Defined.

(** Enter on a typed text sends it. *)
Lemma enter_key_sends_typed_text :
  let w := run start [ChangeInput "hi"] in
  key enterKey = "Enter" /\ shiftKey enterKey = false
  /\ step w (KeyPress enterKey 7) = step w (ClickSend 7).
Proof.
  cbv zeta. split; [reflexivity|]. split; [reflexivity|].
  exact (proj1 (enter_key_is_send_click (run start [ChangeInput "hi"])
                  enterKey 7) eq_refl eq_refl).
Defined.

End ChatMachineExamples.

Section ListingsMachineExamples.
Import Js Listings PlainHost Examples.

(** Page 2 of 1, after the query has narrowed ten listings to one, is
    empty. *)
Lemma page_beyond_last_is_empty :
  let st := ui (run tenLoaded [HandlePageChange 2; SetQuery "condo"]) in
  (1 <= currentPage st)%Z
  /\ (totalPages st < currentPage st)%Z
  /\ paginatedListings st = [].
Proof.
  cbv zeta.
  set (st := ui (run tenLoaded [HandlePageChange 2; SetQuery "condo"])).
  assert (H1 : (1 <= currentPage st)%Z) by (vm_compute; discriminate).
  assert (H2 : (totalPages st < currentPage st)%Z) by (vm_compute; reflexivity).
  split; [exact H1|]. split; [exact H2|].
  apply (proj1 (page_empty_iff st H1)). right. exact H2.
Defined.

(** On page 1 of 2 a click on [Next] leads to page 2. *)
Lemma next_from_first_page :
  (1 <= currentPage (ui tenLoaded) <= totalPages (ui tenLoaded))%Z
  /\ pagerClick Next (ui tenLoaded) = Some (HandlePageChange 2)
  /\ currentPage (ui (step tenLoaded (HandlePageChange 2))) = 2%Z
  /\ totalPages (ui (step tenLoaded (HandlePageChange 2))) = 2%Z.
Proof.
  assert (Hr : (1 <= currentPage (ui tenLoaded)
                <= totalPages (ui tenLoaded))%Z)
    by (split; vm_compute; discriminate).
  assert (Hc : pagerClick Next (ui tenLoaded) = Some (HandlePageChange 2))
    by (vm_compute; reflexivity).
  pose proof (pager_keeps_page_in_range tenLoaded Next _ Hr Hc)
    as (Hpages & _ & _ & Hnext & _). cbv zeta in Hpages, Hnext.
  split; [exact Hr|]. split; [exact Hc|].
  split; [rewrite (Hnext eq_refl); vm_compute; reflexivity|].
  rewrite Hpages. vm_compute. reflexivity.
Defined.

(** A change of the bedrooms filter before the first timer fires: the
    first run sends nothing, the second asks for three bedrooms. *)
Lemma debounced_first_run :
  let w' :=
    run (step mount (SetFilters threeBedrooms)) [TimerFires 0; TimerFires 1]
  in
  Spec.isFilterChange (SetFilters threeBedrooms)
  /\ sentBy 0 w' = []
  /\ step w' (TimerFires 0) = w'
  /\ sentBy 1 w' = [rentcastRequest (threeBedrooms initialFilters)].
Proof.
  cbv zeta. split; [exact I|].
  pose proof (debounced_run_never_starts mount 0
                (newCycle initialFilters initialCarFilters)
                (SetFilters threeBedrooms) [TimerFires 0; TimerFires 1]
                eq_refl eq_refl eq_refl eq_refl (or_introl I)) as [H1 H2].
  split; [exact H1|]. split; [exact H2|]. vm_compute. reflexivity.
Defined.

(** The run started by a change of the bedrooms filter asks for three
    bedrooms when its timer fires. *)
Lemma live_run_asks_for_current_filters :
  let w := run mount [SetFilters threeBedrooms] in
  cycles w !! 1%nat =
    Some (newCycle (threeBedrooms initialFilters) initialCarFilters)
  /\ sent (step w (TimerFires 1)) =
       sent w ++ [(1%nat, rentcastRequest (filters (ui w)))]
  /\ filters (ui w) = threeBedrooms initialFilters.
Proof.
  cbv zeta. split; [reflexivity|]. split; [|reflexivity].
  exact (proj2 (one_live_run [SetFilters threeBedrooms]) 1%nat
           (newCycle (threeBedrooms initialFilters) initialCarFilters)
           eq_refl eq_refl eq_refl).
Defined.

(** After the unmount a late property response changes nothing. *)
Lemma unmounted_late_response :
  let later := [RentSettles 0 (Answered true (Some [rawCondo])) noise;
                CarSettles 0 hondaResponse noise] in
  let w := step (run mount [TimerFires 0]) Unmount in
  Forall (fun e => exists a, Spec.ofCycle a e) later
  /\ ui (run w later) = ui w.
Proof.
  cbv zeta.
  assert (Hlater : Forall (fun e => exists a, Spec.ofCycle a e)
                     [RentSettles 0 (Answered true (Some [rawCondo])) noise;
                      CarSettles 0 hondaResponse noise])
    by (repeat constructor; exists 0%nat; reflexivity).
  split; [exact Hlater|].
  exact (unmounted_page_is_not_written [TimerFires 0] _ Hlater).
Defined.

(** A batch of flat records with a numbered address is lost as a whole. *)
Lemma batch_with_numbered_address :
  Forall flat [rawCondo; rawNumberedAddress]
  /\ (exists p, p ∈ [rawCondo; rawNumberedAddress] /\ throwsOn p = true)
  /\ transformedProperties initialFilters noise
       [rawCondo; rawNumberedAddress] = None.
Proof.
  assert (Hflat : Forall flat [rawCondo; rawNumberedAddress]).
  { repeat constructor; unfold rawCondo, rawNumberedAddress;
      repeat apply flat_insert; try reflexivity; apply flat_empty. }
  assert (H : exists p, p ∈ [rawCondo; rawNumberedAddress]
                        /\ throwsOn p = true).
  { exists rawNumberedAddress. split; [|reflexivity].
    apply list_elem_of_further, list_elem_of_here. }
  split; [exact Hflat|]. split; [exact H|].
  pose proof (batches_keep_every_record initialFilters noise
                [rawCondo; rawNumberedAddress] [])
    as (_ & _ & _ & _ & _ & _ & Hlost & _).
  exact (proj2 (Hlost Hflat) H).
Defined.

(** The first run of the page, answered with a numbered address: the
    loading flag is cleared and no vehicle request is sent. *)
Lemma cycle_with_numbered_address :
  let ro := Answered true (Some [rawNumberedAddress]) in
  let w' :=
    run mount [TimerFires 0; RentSettles 0 ro noise;
               CarSettles 0 hondaResponse noise] in
  rentDataOf ro ≫= transformedProperties initialFilters noise = None
  /\ loading (ui w') = false
  /\ carListings (ui w') = []
  /\ sentBy 0 w' = [rentcastRequest initialFilters].
Proof.
  cbv zeta.
  assert (Hnone : rentDataOf (Answered true (Some [rawNumberedAddress]))
                    ≫= transformedProperties initialFilters noise = None)
    by reflexivity.
  pose proof (cycle_always_clears_loading mount 0
                (newCycle initialFilters initialCarFilters)
                (Answered true (Some [rawNumberedAddress])) hondaResponse
                noise noise eq_refl eq_refl eq_refl)
    as (_ & Hload & Hthrow). cbv zeta in Hload, Hthrow.
  destruct (Hthrow Hnone) as (_ & Hcars & Hsent).
  split; [exact Hnone|]. split; [exact Hload|].
  split; [exact Hcars | exact Hsent].
Defined.

(** The fields of the normalized condo. *)
Lemma property_fields_of_condo :
  let p :=
    {| PropertyListing.id := JStr "7-123 Main St";
       PropertyListing.title := "Condo on 123 St";
       PropertyListing.location := "Richardson, TX";
       PropertyListing.price := "$350,000";
       PropertyListing.bedrooms := JStr "—";
       PropertyListing.bathrooms := JStr "—";
       PropertyListing.sqft := "N/A";
       PropertyListing.image :=
         "https://images.unsplash.com/photo-1568605114967-8130f3a36994?w=600&h=400&fit=crop";
       PropertyListing.condition := 82 |} in
  transformProperty initialFilters 12 rawCondo 7 = Some p
  /\ nullish (PropertyListing.bedrooms p) = false
  /\ PropertyListing.sqft p <> ""
  /\ propertyImages !! 1%nat = Some (PropertyListing.image p).
Proof.
  intros p.
  assert (Hp : transformProperty initialFilters 12 rawCondo 7 = Some p)
    by reflexivity.
  pose proof (property_fields_populated initialFilters 12 rawCondo 7 p Hp)
    as (_ & Hbed & _ & Hsqft & _ & _ & Himg & _).
  split; [exact Hp|]. split; [exact Hbed|]. split; [exact Hsqft|exact Himg].
Defined.

(** The normalized Honda, which has no photo link, gets a stock image. *)
Lemma vehicle_fields_of_honda :
  truthy (optFirst (optMember (get rawHonda "media") "photo_links")) = false
  /\ exists v, transformCar 12 rawHonda 2 = Some v
               /\ CarListing.title v = "N/A Honda Civic"
               /\ exists s, CarListing.image v = JStr s /\ s ∈ carImages.
Proof.
  split; [reflexivity|].
  destruct (transformCar 12 rawHonda 2) as [v|] eqn:Hv; [|discriminate].
  exists v. split; [reflexivity|].
  split; [injection Hv as <-; reflexivity|].
  exact (proj2 (proj2 (proj2 (proj2 (proj2 (proj2 (proj2
           (vehicle_fields_populated 12 rawHonda 2 v Hv))))))) eq_refl).
Defined.

(** What [PLANO] finds is found by [pla]. *)
Lemma plano_narrows_pla :
  trim "PLANO" <> ""
  /\ includes (toLowerCase "PLANO") (toLowerCase "pla") = true
  /\ filterListings property "PLANO" twoListings
       `sublist_of` filterListings property "pla" twoListings.
Proof.
  assert (Hq : trim "PLANO" <> "") by (vm_compute; discriminate).
  assert (Hin : includes (toLowerCase "PLANO") (toLowerCase "pla") = true)
    by reflexivity.
  split; [exact Hq|]. split; [exact Hin|].
  exact (longer_query_narrows property "pla" "PLANO" twoListings Hq Hin).
Defined.

(** A draw of 12 gives the score 82, [Very Good]; the score is still there
    after the [Close] button and gone after [onOpenChange(false)]. *)
Lemma condition_label_of_twelve :
  (0 <= 12 <= 25)%Z
  /\ exists v, transformCar 12 rawHonda 0 = Some v
       /\ let opened := viewDetails (CarItem v) initialDetail in
          shownCondition opened = 82%Z
          /\ (conditionLabel (shownCondition opened) = "Very Good"
              <-> 10 <= 12 < 20)%Z
          /\ shownCondition (closeClicked opened) = 82%Z
          /\ shownCondition (onOpenChange false opened) = 85%Z.
Proof.
  assert (Hr : (0 <= 12 <= 25)%Z) by lia.
  split; [exact Hr|].
  destruct (transformCar 12 rawHonda 0) as [v|] eqn:Hv; [|discriminate].
  exists v. split; [reflexivity|].
  pose proof (condition_label_of_draw initialFilters 12 rawHonda 0
                initialDetail (CarItem v) Hr
                (or_introl (ex_intro _ v (conj Hv eq_refl))))
    as (_ & [Hc _] & _ & Hgood & _ & (_ & _ & Hgone & _) & (_ & _ & Hkept)).
  cbv zeta in *. split; [exact Hc|]. split; [exact Hgood|].
  split; [exact Hkept | exact Hgone].
Defined.

(** The dialog of a vehicle whose first photo link is a number throws. *)
Lemma dialog_photo_of_numbered_link :
  let photo :=
    optFirst (optMember (get rawNumberedPhoto "media") "photo_links") in
  truthy photo = true /\ isString photo = false
  /\ exists v, transformCar 12 rawNumberedPhoto 0 = Some v
       /\ showsPhoto (viewDetails (CarItem v) initialDetail) = None.
Proof.
  cbv zeta. split; [reflexivity|]. split; [reflexivity|].
  destruct (transformCar 12 rawNumberedPhoto 0) as [v|] eqn:Hv;
    [|discriminate].
  exists v. split; [reflexivity|].
  exact (proj2 (proj2 (proj1 (proj2
           (dialog_photo initialFilters 12 rawNumberedPhoto 0 initialDetail))
           v Hv)) eq_refl eq_refl).
Defined.

(** Two vehicles without an id, at indices 0 and 1. *)
Lemma synthesized_ids_of_two_vehicles :
  truthy (get rawHonda "id") = false
  /\ exists v v', transformCar 12 rawHonda 0 = Some v
       /\ transformCar 12 rawHonda 1 = Some v'
       /\ CarListing.id v = JStr "car-0"
       /\ CarListing.id v <> CarListing.id v'.
Proof.
  split; [reflexivity|].
  destruct (transformCar 12 rawHonda 0) as [v|] eqn:Hv; [|discriminate].
  destruct (transformCar 12 rawHonda 1) as [v'|] eqn:Hv'; [|discriminate].
  exists v, v'. split; [reflexivity|]. split; [reflexivity|].
  split; [injection Hv as <-; reflexivity|].
  exact (proj1 (synthesized_ids_distinct initialFilters 12 12 rawHonda
                  rawHonda 0 1 eq_refl eq_refl ltac:(discriminate))
           v v' Hv Hv').
Defined.

End ListingsMachineExamples.
